(** * AlgoClash: the match coordinator of scripts/server.ts

    A shallow embedding of the realtime server: the judging harness
    ([evaluateSolution], [deepEqual]), the per-room state machine ([Room]),
    the room registry ([RoomsMap]) and the per-connection message handler.

    Conventions of the embedding.
    - A JavaScript [Map] is a list in insertion order (iteration order is
      what the broadcasts follow); [Map.set] on a present key keeps its place.
    - Everything a handler sends is collected, in order, in a trace of
      [Out] events; a promise rejected with nobody to handle it is an event too.
    - [Date.now()], [Math.random()] and [crypto.randomUUID()] are arguments
      of the operation that reads them.
    - Handlers run to completion one at a time (section 5 of the design):
      an [async] method runs up to its first [await] when called, and the
      rest of it before the next event is delivered. *)

From Stdlib Require Import ZArith List String Ascii Bool Lia Arith.
From Stdlib Require Import DecimalString.
Import ListNotations.
Set Warnings "-register-all".
Open Scope list_scope.
Open Scope string_scope.

(* ------------------------------------------------------------------ *)
(** ** JavaScript values and their JSON text *)

Module JS.

(** Numbers: the integers (those that print in plain decimal notation),
    and the three values with no JSON text of their own.  Fractions and
    exponent notation are outside this model. *)
Inductive JSNumber : Type :=
| NInt (z : Z)
| NNaN
| NPosInf
| NNegInf.

(** Values a sandboxed call can hand back, and the data of a test vector.
    An object is its own enumerable properties in enumeration order, with
    no [toJSON] method; strings are ASCII texts. *)
Inductive JSValue : Type :=
| VUndefined
| VNull
| VBool (b : bool)
| VNum (n : JSNumber)
| VBigInt (z : Z)
| VStr (s : string)
| VFun (name : string)
| VArr (items : list JSValue)
| VObj (props : list (string * JSValue)).

(** What [JSON.stringify] gives: a text, [undefined], or a TypeError. *)
Inductive Serialized : Type :=
| Text (s : string)
| NoText
| SerializeError (msg : string).

Definition string_of_Z (z : Z) : string :=
  NilZero.string_of_int (Z.to_int z).

Definition char (n : nat) : string := String (ascii_of_nat n) EmptyString.
Definition dquote : string := char 34.
Definition backslash : string := char 92.

Definition hex_digit (n : nat) : string :=
  match n with
  | 10 => "a" | 11 => "b" | 12 => "c" | 13 => "d" | 14 => "e" | 15 => "f"
  | _ => string_of_Z (Z.of_nat n)
  end.

(** QuoteJSONString, one code unit at a time. *)
Definition escape_char (c : ascii) : string :=
  let n := nat_of_ascii c in
  if Nat.eqb n 34 then backslash ++ dquote
  else if Nat.eqb n 92 then backslash ++ backslash
  else if Nat.eqb n 8 then backslash ++ "b"
  else if Nat.eqb n 9 then backslash ++ "t"
  else if Nat.eqb n 10 then backslash ++ "n"
  else if Nat.eqb n 12 then backslash ++ "f"
  else if Nat.eqb n 13 then backslash ++ "r"
  else if Nat.ltb n 32 then backslash ++ "u00" ++ hex_digit (n / 16) ++ hex_digit (n mod 16)
  else String c EmptyString.

Fixpoint escape (s : string) : string :=
  match s with
  | EmptyString => EmptyString
  | String c s' => escape_char c ++ escape s'
  end.

Definition quote (s : string) : string := dquote ++ escape s ++ dquote.

Definition bigint_message : string := "Do not know how to serialize a BigInt".

(** [JSON.stringify(v)] with no replacer and no indent.  Inside an array a
    value with no text is written [null]; inside an object its key is left
    out. *)
Fixpoint stringify (v : JSValue) : Serialized :=
  match v with
  | VUndefined => NoText
  | VFun _ => NoText
  | VNull => Text "null"
  | VBool true => Text "true"
  | VBool false => Text "false"
  | VNum (NInt z) => Text (string_of_Z z)
  | VNum _ => Text "null"
  | VBigInt _ => SerializeError bigint_message
  | VStr s => Text (quote s)
  | VArr items =>
      let fix elements (l : list JSValue) : string + list string :=
        match l with
        | [] => inr []
        | x :: l' =>
            match stringify x with
            | SerializeError m => inl m
            | NoText =>
                match elements l' with
                | inl m => inl m
                | inr ps => inr ("null" :: ps)
                end
            | Text s =>
                match elements l' with
                | inl m => inl m
                | inr ps => inr (s :: ps)
                end
            end
        end in
      match elements items with
      | inl m => SerializeError m
      | inr ps => Text ("[" ++ String.concat "," ps ++ "]")
      end
  | VObj props =>
      let fix members (l : list (string * JSValue)) : string + list string :=
        match l with
        | [] => inr []
        | (k, x) :: l' =>
            match stringify x with
            | SerializeError m => inl m
            | NoText => members l'
            | Text s =>
                match members l' with
                | inl m => inl m
                | inr ps => inr ((quote k ++ ":" ++ s) :: ps)
                end
            end
        end in
      match members props with
      | inl m => SerializeError m
      | inr ps => Text ("{" ++ String.concat "," ps ++ "}")
      end
  end.

(** The result of a comparison that itself may throw. *)
Inductive Compared : Type :=
| Same
| Different
| CompareError (msg : string).

Definition serialized_eqb (a b : Serialized) : bool :=
  match a, b with
  | Text s, Text t => String.eqb s t
  | NoText, NoText => true
  | _, _ => false
  end.

(** [deepEqual(a, b)]: [JSON.stringify(a) === JSON.stringify(b)], the left
    operand serialized first; [JSON.stringify] is the built-in function. *)
Definition deepEqual (a b : JSValue) : Compared :=
  match stringify a with
  | SerializeError m => CompareError m
  | sa =>
      match stringify b with
      | SerializeError m => CompareError m
      | sb => if serialized_eqb sa sb then Same else Different
      end
  end.

Definition int (z : Z) : JSValue := VNum (NInt z).

End JS.
Export JS.

(* ------------------------------------------------------------------ *)
(** ** Problems and the repository layer *)

Inductive Difficulty : Type := Easy | Medium | Hard.
Inductive Topic : Type := Arrays | Strings | Trees | Graphs | DP.

(** [TeamKey]: the labels "A" and "B". *)
Inductive TeamKey : Type := TeamA | TeamB.

Definition Difficulty_eqb (a b : Difficulty) : bool :=
  match a, b with
  | Easy, Easy | Medium, Medium | Hard, Hard => true
  | _, _ => false
  end.

Definition Topic_eqb (a b : Topic) : bool :=
  match a, b with
  | Arrays, Arrays | Strings, Strings | Trees, Trees | Graphs, Graphs | DP, DP => true
  | _, _ => false
  end.

Definition TeamKey_eqb (a b : TeamKey) : bool :=
  match a, b with
  | TeamA, TeamA | TeamB, TeamB => true
  | _, _ => false
  end.

Record Test : Type := mkTest { args : list JSValue; expected : JSValue }.

(** [Problem].  The display texts [description], [signature] and [examples]
    are carried along by the server and read by no code path; they are left
    out of the record. *)
Record Problem : Type := mkProblem {
  problem_id : string;
  title : string;
  boilerplate : string;
  problem_difficulty : Difficulty;
  problem_topic : Topic;
  functionName : string;
  tests : list Test
}.

(** A settled promise of an [async] function. *)
Inductive Promise (A : Type) : Type :=
| Resolved (a : A)
| Rejected (message : string).
Arguments Resolved {A} a.
Arguments Rejected {A} message.

Module Repo.

(** [Repo.getRandomProblem]; [pick] stands for [Math.floor(Math.random() *
    pool.length)], any index below the pool's length. *)
Definition getRandomProblem (problems : list Problem) (pick : nat)
    (difficulty : Difficulty) (topic : Topic) : Promise Problem :=
  let pool := filter (fun p => Difficulty_eqb (problem_difficulty p) difficulty
                               && Topic_eqb (problem_topic p) topic) problems in
  match pool with
  | [] => Rejected "No problems in this category."
  | first :: _ => Resolved (nth (pick mod List.length pool) pool first)
  end.

End Repo.


(** [seedProblems]: the six seeded problems, in the order they are pushed. *)
Module Seed.

Definition q (s : string) : string := dquote ++ s ++ dquote.
Definition s (text : string) : JSValue := VStr text.
Definition ints (l : list Z) : JSValue := VArr (map int l).
Definition strs (l : list string) : JSValue := VArr (map VStr l).

Definition twoSum : Problem := {|
  problem_id := "two-sum-easy";
  title := "Two Sum";
  boilerplate := "function twoSum(nums, target) {
  const map = new Map();
  for (let i = 0; i < nums.length; i++) {
    const need = target - nums[i];
    if (map.has(need)) return [map.get(need), i];
    map.set(nums[i], i);
  }
  return [];
}
";
  problem_difficulty := Easy;
  problem_topic := Arrays;
  functionName := "twoSum";
  tests := [ mkTest [ints [2; 7; 11; 15]; int 9] (ints [0; 1]);
             mkTest [ints [3; 2; 4]; int 6] (ints [1; 2]);
             mkTest [ints [3; 3]; int 6] (ints [0; 1]) ]%Z
|}.

Definition isAnagram : Problem := {|
  problem_id := "valid-anagram";
  title := "Valid Anagram";
  boilerplate := "function isAnagram(s, t) {
  if (s.length !== t.length) return false;
  const cnt = new Array(26).fill(0);
  for (let i = 0; i < s.length; i++) {
    cnt[s.charCodeAt(i) - 97]++;
    cnt[t.charCodeAt(i) - 97]--;
  }
  return cnt.every(x => x === 0);
}
";
  problem_difficulty := Easy;
  problem_topic := Strings;
  functionName := "isAnagram";
  tests := [ mkTest [s "anagram"; s "nagaram"] (VBool true);
             mkTest [s "rat"; s "car"] (VBool false) ]
|}.

Definition leaf (v : Z) : JSValue := VObj [("val", int v)].

Definition maxDepth : Problem := {|
  problem_id := "max-depth-tree";
  title := "Maximum Depth of Binary Tree";
  boilerplate := "function maxDepth(root) {
  if (!root) return 0;
  return 1 + Math.max(maxDepth(root.left), maxDepth(root.right));
}
";
  problem_difficulty := Medium;
  problem_topic := Trees;
  functionName := "maxDepth";
  tests := [ mkTest [ VObj [ ("val", int 3);
                             ("left", VObj [("val", int 9); ("left", VNull); ("right", VNull)]);
                             ("right", VObj [("val", int 20); ("left", leaf 15); ("right", leaf 7)]) ] ]
                    (int 3);
             mkTest [VNull] (int 0) ]%Z
|}.

Definition numIslands : Problem := {|
  problem_id := "num-islands";
  title := "Number of Islands";
  boilerplate := "function numIslands(grid) {
  const m = grid.length, n = grid[0].length;
  let count = 0;
  const dirs = [[1,0],[-1,0],[0,1],[0,-1]];
  function dfs(r,c){
    if (r<0||c<0||r>=m||c>=n||grid[r][c]!==" ++ q "1" ++ ") return;
    grid[r][c]=" ++ q "0" ++ ";
    for (const [dr,dc] of dirs) dfs(r+dr,c+dc);
  }
  for (let i=0;i<m;i++){
    for (let j=0;j<n;j++){
      if (grid[i][j]===" ++ q "1" ++ "){ count++; dfs(i,j); }
    }
  }
  return count;
}
";
  problem_difficulty := Medium;
  problem_topic := Graphs;
  functionName := "numIslands";
  tests := [ mkTest [ VArr [strs ["1"; "1"; "0"]; strs ["0"; "1"; "0"]; strs ["1"; "0"; "1"]] ] (int 3);
             mkTest [ VArr [strs ["0"; "0"]; strs ["0"; "0"]] ] (int 0) ]%Z
|}.

Definition minDistance : Problem := {|
  problem_id := "edit-distance";
  title := "Edit Distance";
  boilerplate := "function minDistance(a, b) {
  const m = a.length, n = b.length;
  const dp = Array.from({ length: m + 1 }, () => new Array(n + 1).fill(0));
  for (let i = 0; i <= m; i++) dp[i][0] = i;
  for (let j = 0; j <= n; j++) dp[0][j] = j;
  for (let i = 1; i <= m; i++) {
    for (let j = 1; j <= n; j++) {
      if (a[i - 1] === b[j - 1]) dp[i][j] = dp[i - 1][j - 1];
      else dp[i][j] = 1 + Math.min(dp[i - 1][j], dp[i][j - 1], dp[i - 1][j - 1]);
    }
  }
  return dp[m][n];
}
";
  problem_difficulty := Hard;
  problem_topic := DP;
  functionName := "minDistance";
  tests := [ mkTest [s "horse"; s "ros"] (int 3);
             mkTest [s "intention"; s "execution"] (int 5) ]%Z
|}.

Definition canFinish : Problem := {|
  problem_id := "course-schedule";
  title := "Course Schedule (Detect Cycle)";
  boilerplate := "function canFinish(n, prereqs) {
  const g = Array.from({length:n}, () => []);
  const indeg = new Array(n).fill(0);
  for (const [a,b] of prereqs) { g[b].push(a); indeg[a]++; }
  const q = [];
  for (let i=0;i<n;i++) if (indeg[i]===0) q.push(i);
  let seen = 0;
  while (q.length) {
    const u = q.shift();
    seen++;
    for (const v of g[u]) {
      if (--indeg[v] === 0) q.push(v);
    }
  }
  return seen === n;
}
";
  problem_difficulty := Hard;
  problem_topic := Graphs;
  functionName := "canFinish";
  tests := [ mkTest [int 2; VArr [ints [1; 0]]] (VBool true);
             mkTest [int 2; VArr [ints [1; 0]; ints [0; 1]]] (VBool false) ]%Z
|}.

Definition seedProblems : list Problem :=
  [twoSum; isAnagram; maxDepth; numIslands; minDistance; canFinish].

End Seed.

(* ------------------------------------------------------------------ *)
(** ** The execution harness *)

(** How a run inside the sandbox ends: with a value, or abruptly (a throw or
    the one second budget running out).  [Abrupt text] carries the text that
    the template [e?.message || e] yields for the thrown value. *)
Inductive Completion : Type :=
| Normal (v : JSValue)
| Abrupt (text : string).

(** Node's [vm] module is the platform, not part of the repository; the
    harness is stated over what it needs from it.
    - [Code]: a submission as the platform parses it.
    - [Context]: the contextified global object of one [evaluateSolution] call.
    - [Host]: what a run can reach outside its context.  The context is
      built from the host's own [Math], [JSON], [Number], [String], [Array]
      and [Object] objects, handed over by reference, so their properties
      and the generator behind [Math.random] are shared with the server.
    - [createContext names]: a fresh context whose global object has the
      host's values of [names].
    - [runWrapped code f]: run the submission followed by the expression
      [typeof f === "function" ? f : null].
    - [runCall f args]: run [(f)(...args)] with the JSON text of [args]. *)
Record Sandbox : Type := mkSandbox {
  Code : Type;
  Context : Type;
  Host : Type;
  createContext : list string -> Context;
  runWrapped : Code -> string -> Context -> Host -> Completion * Context * Host;
  runCall : string -> list JSValue -> Context -> Host -> Completion * Context * Host
}.

Definition is_function (v : JSValue) : bool :=
  match v with VFun _ => true | _ => false end.

(** The keys of the object [evaluateSolution] contextifies. *)
Definition sandbox_names : list string :=
  ["console"; "Math"; "JSON"; "Number"; "String"; "Array"; "Object";
   "parseInt"; "parseFloat"; "BigInt"; "Infinity"].

Section Harness.

Variable vm : Sandbox.

(** The [for (const t of problem.tests)] loop of [evaluateSolution]: every
    call runs in the context the previous one left. *)
Fixpoint run_tests (fname : string) (ts : list Test) (ctx : Context vm) (host : Host vm)
    : Promise bool * Host vm :=
  match ts with
  | [] => (Resolved true, host)
  | t :: rest =>
      let '(c, ctx', host') := runCall vm fname (args t) ctx host in
      match c with
      | Abrupt e => (Rejected ("Runtime error on test: " ++ e), host')
      | Normal out =>
          match deepEqual out (expected t) with
          | CompareError m => (Rejected m, host')
          | Different => (Resolved false, host')
          | Same => run_tests fname rest ctx' host'
          end
      end
  end.

Definition evaluateSolution (code : Code vm) (problem : Problem) (host : Host vm)
    : Promise bool * Host vm :=
  let context := createContext vm sandbox_names in
  let '(c, context', host') := runWrapped vm code (functionName problem) context host in
  match c with
  | Abrupt e => (Rejected ("Compile error: " ++ e), host')
  | Normal fn =>
      if is_function fn
      then run_tests (functionName problem) (tests problem) context' host'
      else (Rejected ("Function " ++ functionName problem ++ " not found"), host')
  end.

End Harness.

(* ------------------------------------------------------------------ *)
(** ** Maps, players and messages *)

(** A [Map] with string keys, in insertion order. *)
Module JSMap.
Section Ops.
Context {V : Type}.

Definition t : Type := list (string * V).

Definition get (k : string) (m : t) : option V :=
  match find (fun e => String.eqb (fst e) k) m with
  | Some e => Some (snd e)
  | None => None
  end.

Definition has (k : string) (m : t) : bool :=
  existsb (fun e => String.eqb (fst e) k) m.

Fixpoint set (k : string) (v : V) (m : t) : t :=
  match m with
  | [] => [(k, v)]
  | (k', v') :: m' => if String.eqb k' k then (k, v) :: m' else (k', v') :: set k v m'
  end.

Definition delete (k : string) (m : t) : t :=
  filter (fun e => negb (String.eqb (fst e) k)) m.

Definition values (m : t) : list V := map snd m.
Definition size (m : t) : nat := List.length m.

(** A write through a reference obtained from [get]: the entry changes in
    place. *)
Definition adjust (f : V -> V) (k : string) (m : t) : t :=
  map (fun e => if String.eqb (fst e) k then (fst e, f (snd e)) else e) m.

End Ops.
Arguments t : clear implicits.
End JSMap.

(** A client connection as the server sees it: which socket it is, and
    whether [readyState] is [OPEN]. *)
Record WebSocket : Type := mkWebSocket { conn : nat; isOpen : bool }.

Module Player.
Record t : Type := mk {
  id : string;
  name : string;
  team : TeamKey;
  ready : bool;
  attempts : nat;
  errors : nat;
  ws : WebSocket
}.
Definition with_team (v : TeamKey) (p : t) : t := mk (id p) (name p) v (ready p) (attempts p) (errors p) (ws p).
Definition with_ready (v : bool) (p : t) : t := mk (id p) (name p) (team p) v (attempts p) (errors p) (ws p).
Definition with_attempts (v : nat) (p : t) : t := mk (id p) (name p) (team p) (ready p) v (errors p) (ws p).
Definition with_errors (v : nat) (p : t) : t := mk (id p) (name p) (team p) (ready p) (attempts p) v (ws p).
End Player.

(** One entry of [RoomStatePayload.players]. *)
Record PlayerState : Type := mkPlayerState {
  ps_id : string;
  ps_name : string;
  ps_team : TeamKey;
  ps_ready : bool;
  ps_attempts : nat;
  ps_errors : nat
}.

Record RoomStatePayload : Type := mkRoomStatePayload {
  roomId : string;
  payload_difficulty : Difficulty;
  payload_topic : Topic;
  payload_players : list PlayerState;
  payload_started : bool;
  payload_winner : option TeamKey
}.

(** [ServerToClientMessage]; times are milliseconds. *)
Module ToClient.
Inductive t : Type :=
| room_state (state : RoomStatePayload) (selfId : option string)
| game_start (problem : Problem) (endAt : Z) (boilerplate : string)
| chat (from : string) (text : string) (team : TeamKey)
| attempt_result (ok : bool) (message : option string)
| game_over (winner : option TeamKey) (timeTaken : Z)
| timer_sync (endAt : Z)
| error (message : string).

Definition is_error (m : t) : bool := match m with error _ => true | _ => false end.
Definition is_game_over (m : t) : bool := match m with game_over _ _ => true | _ => false end.
Definition is_room_state (m : t) : bool := match m with room_state _ _ => true | _ => false end.
End ToClient.

(** [ClientToServerMessage], over the platform's reading [C] of a code text. *)
Module ToServer.
Inductive t (C : Type) : Type :=
| join_room (roomId : string) (name : string) (difficulty : option Difficulty) (topic : option Topic)
| ready (ready : bool)
| chat (text : string)
| code_update (code : C)
| cursor (line column : Z)
| submit_solution (code : C)
| rematch.
Arguments join_room {C}.
Arguments ready {C}.
Arguments chat {C}.
Arguments code_update {C}.
Arguments cursor {C}.
Arguments submit_solution {C}.
Arguments rematch {C}.
End ToServer.

(** What the server does to the outside: a payload written to an open
    socket, or a promise that was rejected with no handler attached (which
    Node reports as an unhandled rejection of the process). *)
Inductive Out : Type :=
| Send (to : nat) (msg : ToClient.t)
| UnhandledRejection (message : string).

(** [safeSend]: nothing is written to a socket that is not open. *)
Definition safeSend (ws : WebSocket) (payload : ToClient.t) : list Out :=
  if isOpen ws then [Send (conn ws) payload] else [].

(* ------------------------------------------------------------------ *)
(** ** A monad for methods: state, trace and exceptions *)

Inductive Outcome (A : Type) : Type :=
| Returned (a : A)
| Threw (message : string).
Arguments Returned {A} a.
Arguments Threw {A} message.

(** A method body over a state [S]: a thrown exception keeps the writes and
    the sends made before it. *)
Definition M (S A : Type) : Type := S -> Outcome A * S * list Out.

Definition ret {S A} (a : A) : M S A := fun s => (Returned a, s, []).

Definition bind {S A B} (m : M S A) (k : A -> M S B) : M S B :=
  fun s =>
    match m s with
    | (Returned a, s1, o1) => let '(r, s2, o2) := k a s1 in (r, s2, (o1 ++ o2)%list)
    | (Threw e, s1, o1) => (Threw e, s1, o1)
    end.

Definition get {S} : M S S := fun s => (Returned s, s, []).
Definition modify {S} (f : S -> S) : M S unit := fun s => (Returned tt, f s, []).
Definition emit {S} (o : list Out) : M S unit := fun s => (Returned tt, s, o).
Definition throw {S A} (e : string) : M S A := fun s => (Threw e, s, []).

(** Calling an [async] method without awaiting it and without a handler:
    the caller goes on, a rejection is left unhandled. *)
Definition detached {S} (m : M S unit) : M S unit :=
  fun s =>
    match m s with
    | (Returned _, s1, o1) => (Returned tt, s1, o1)
    | (Threw e, s1, o1) => (Returned tt, s1, (o1 ++ [UnhandledRejection e])%list)
    end.

(** Awaiting a settled promise inside an [async] body. *)
Definition await {S A} (p : Promise A) : M S A :=
  match p with
  | Resolved a => ret a
  | Rejected e => throw e
  end.

Declare Scope method_scope.
Delimit Scope method_scope with method.
Notation "x <- m ;; k" := (bind m (fun x => k))
  (at level 61, m at next level, right associativity) : method_scope.
Notation "m ;; k" := (bind m (fun _ => k))
  (at level 61, right associativity) : method_scope.
Open Scope method_scope.

Definition state_after {S A} (r : Outcome A * S * list Out) : S := snd (fst r).
Definition trace_of {S A} (r : Outcome A * S * list Out) : list Out := snd r.

(* ------------------------------------------------------------------ *)
(** ** The room state machine *)

Definition PORT : Z := 4000.
Definition GAME_SECONDS : Z := 20 * 60.

(** The server's one repository instance, seeded at construction. *)
Definition repo : list Problem := Seed.seedProblems.

(** Truthiness of a [number | null] field: [null] and [0] are falsy. *)
Definition truthy (t : option Z) : bool :=
  match t with
  | Some z => negb (Z.eqb z 0)
  | None => false
  end.

Module Room.

(** The fields of [class Room]; [timer] is true while an interval is
    scheduled. *)
Record state : Type := mk {
  id : string;
  difficulty : Difficulty;
  topic : Topic;
  players : JSMap.t Player.t;
  started : bool;
  winner : option TeamKey;
  problem : option Problem;
  endAt : option Z;
  timer : bool
}.

Definition with_players (v : JSMap.t Player.t) (r : state) : state :=
  mk (id r) (difficulty r) (topic r) v (started r) (winner r) (problem r) (endAt r) (timer r).
Definition with_started (v : bool) (r : state) : state :=
  mk (id r) (difficulty r) (topic r) (players r) v (winner r) (problem r) (endAt r) (timer r).
Definition with_winner (v : option TeamKey) (r : state) : state :=
  mk (id r) (difficulty r) (topic r) (players r) (started r) v (problem r) (endAt r) (timer r).
Definition with_problem (v : option Problem) (r : state) : state :=
  mk (id r) (difficulty r) (topic r) (players r) (started r) (winner r) v (endAt r) (timer r).
Definition with_endAt (v : option Z) (r : state) : state :=
  mk (id r) (difficulty r) (topic r) (players r) (started r) (winner r) (problem r) v (timer r).
Definition with_timer (v : bool) (r : state) : state :=
  mk (id r) (difficulty r) (topic r) (players r) (started r) (winner r) (problem r) (endAt r) v.

(** [new Room(id, difficulty, topic)]. *)
Definition new (rid : string) (d : Difficulty) (t : Topic) : state :=
  mk rid d t [] false None None None false.

Definition count_team (k : TeamKey) (r : state) : nat :=
  List.length (filter (fun x => TeamKey_eqb (Player.team x) k) (JSMap.values (players r))).

Definition player_state (p : Player.t) : PlayerState :=
  mkPlayerState (Player.id p) (Player.name p) (Player.team p) (Player.ready p)
                (Player.attempts p) (Player.errors p).

(** [serializeRoom], which [broadcastState] repeats word for word. *)
Definition serializeRoom (room : state) : RoomStatePayload :=
  mkRoomStatePayload (id room) (difficulty room) (topic room)
                     (map player_state (JSMap.values (players room)))
                     (started room) (winner room).

Definition fanout (msg : ToClient.t) (r : state) : list Out :=
  flat_map (fun p => safeSend (Player.ws p) msg) (JSMap.values (players r)).

Definition broadcast (msg : ToClient.t) : M state unit :=
  r <- get ;; emit (fanout msg r).

Definition broadcastState (selfId : option string) : M state unit :=
  r <- get ;; broadcast (ToClient.room_state (serializeRoom r) selfId).

Definition addPlayer (p : Player.t) : M state unit :=
  r <- get ;;
  if (4 <=? JSMap.size (players r))%nat then throw "Room full" else
  let countA := count_team TeamA r in
  let countB := count_team TeamB r in
  let team := if (countA <=? countB)%nat then TeamA else TeamB in
  let p := Player.with_team team p in
  modify (fun r => with_players (JSMap.set (Player.id p) p (players r)) r) ;;
  broadcastState (Some (Player.id p)).

Definition removePlayer (pid : string) : M state unit :=
  modify (fun r => with_players (JSMap.delete pid (players r)) r) ;;
  r <- get ;;
  if (JSMap.size (players r) =? 0)%nat then ret tt else broadcastState None.

Definition stopTimer : M state unit :=
  modify (with_timer false).

(** [finish(winner)]; [now] is the [Date.now()] it reads. *)
Definition finish (now : Z) (w : option TeamKey) : M state unit :=
  r <- get ;;
  if negb (started r) then ret tt else
  modify (with_started false) ;;
  modify (with_winner w) ;;
  stopTimer ;;
  r <- get ;;
  let timeTaken := if truthy (endAt r)
                   then Z.max 0 (match endAt r with Some e => e | None => 0 end - now)
                   else 0%Z in
  broadcast (ToClient.game_over w timeTaken) ;;
  broadcastState None.

(** [startTimer]: schedules the one-second interval whose body is
    [timer_tick]. *)
Definition startTimer : M state unit :=
  r <- get ;;
  if negb (truthy (endAt r)) then ret tt else
  stopTimer ;;
  modify (with_timer true).

(** One firing of the interval callback, reading [now] from the clock.  A
    cleared interval does not fire. *)
Definition timer_tick (now : Z) : M state unit :=
  r <- get ;;
  if negb (timer r) then ret tt else
  match endAt r with
  | Some e =>
      if negb (truthy (endAt r)) then ret tt
      else if (e <=? now)%Z then stopTimer ;; finish now None
      else broadcast (ToClient.timer_sync e)
  | None => ret tt
  end.

(** [start]; [pick] is the repository's random draw, [now] the clock read
    after the repository has answered. *)
Definition start (pick : nat) (now : Z) : M state unit :=
  modify (with_started true) ;;
  modify (with_winner None) ;;
  r <- get ;;
  pb <- await (Repo.getRandomProblem repo pick (difficulty r) (topic r)) ;;
  modify (with_problem (Some pb)) ;;
  let e := (now + GAME_SECONDS * 1000)%Z in
  modify (with_endAt (Some e)) ;;
  broadcast (ToClient.game_start pb e (boilerplate pb)) ;;
  broadcastState None ;;
  startTimer.

Definition allReady (r : state) : bool :=
  forallb Player.ready (JSMap.values (players r)).

Definition tryStart (pick : nat) (now : Z) : M state unit :=
  r <- get ;;
  if started r then ret tt
  else if negb (JSMap.size (players r) =? 4)%nat then ret tt
  else if negb (allReady r) then ret tt
  else detached (start pick now).

Definition setReady (pick : nat) (now : Z) (pid : string) (ready : bool) : M state unit :=
  r <- get ;;
  match JSMap.get pid (players r) with
  | Some _ =>
      modify (fun r => with_players (JSMap.adjust (Player.with_ready ready) pid (players r)) r) ;;
      broadcastState None ;;
      tryStart pick now
  | None => ret tt
  end.

Definition handleChat (fromId : string) (text : string) : M state unit :=
  r <- get ;;
  match JSMap.get fromId (players r) with
  | None => ret tt
  | Some p => broadcast (ToClient.chat (Player.name p) text (Player.team p))
  end.

Definition rematch : M state unit :=
  modify (fun r => with_players
            (map (fun e => (fst e, Player.with_errors 0 (Player.with_attempts 0
                                     (Player.with_ready false (snd e))))) (players r)) r) ;;
  modify (with_started false) ;;
  modify (with_winner None) ;;
  modify (with_problem None) ;;
  modify (with_endAt None) ;;
  stopTimer ;;
  broadcastState None.

Section Submit.

Variable vm : Sandbox.

Definition bump_attempts (p : Player.t) : Player.t := Player.with_attempts (Player.attempts p + 1) p.
Definition bump_errors (p : Player.t) : Player.t := Player.with_errors (Player.errors p + 1) p.

(** What both failure paths of [handleSubmit] do with the player [p] that
    [get] returned: count the error, answer [p] alone, refresh the room. *)
Definition reject_attempt (fromId : string) (p : Player.t) (text : string) : M state unit :=
  modify (fun r => with_players (JSMap.adjust bump_errors fromId (players r)) r) ;;
  emit (safeSend (Player.ws p) (ToClient.attempt_result false (Some text))) ;;
  broadcastState None.

(** [handleSubmit]; the result is the host state the judging leaves. *)
Definition handleSubmit (now : Z) (fromId : string) (code : Code vm) (host : Host vm)
    : M state (Host vm) :=
  r <- get ;;
  match JSMap.get fromId (players r), problem r, started r with
  | Some p, Some pb, true =>
      modify (fun r => with_players (JSMap.adjust bump_attempts fromId (players r)) r) ;;
      let '(verdict, host') := evaluateSolution vm code pb host in
      match verdict with
      | Resolved true =>
          broadcast (ToClient.attempt_result true None) ;;
          finish now (Some (Player.team p)) ;;
          ret host'
      | Resolved false =>
          reject_attempt fromId p "Wrong answer" ;;
          ret host'
      | Rejected message =>
          reject_attempt fromId p (if String.eqb message "" then "Runtime error" else message) ;;
          ret host'
      end
  | _, _, _ => ret host
  end.

End Submit.

End Room.

(* ------------------------------------------------------------------ *)
(** ** The registry and the connection handler *)

Module RoomsMap.

Definition t : Type := JSMap.t Room.state.

Definition getOrCreate (rid : string) (d : Difficulty) (tp : Topic) (rooms : t) : Room.state * t :=
  match JSMap.get rid rooms with
  | Some existing => (existing, rooms)
  | None => let room := Room.new rid d tp in (room, JSMap.set rid room rooms)
  end.

Definition get (rid : string) (rooms : t) : option Room.state := JSMap.get rid rooms.

Definition removeIfEmpty (rid : string) (rooms : t) : t :=
  match JSMap.get rid rooms with
  | Some r => if (JSMap.size (Room.players r) =? 0)%nat then JSMap.delete rid rooms else rooms
  | None => rooms
  end.

End RoomsMap.

Definition upper_char (c : ascii) : ascii :=
  let n := nat_of_ascii c in
  if ((97 <=? n) && (n <=? 122))%nat then ascii_of_nat (n - 32) else c.

(** [toUpperCase] on the ASCII letters. *)
Fixpoint toUpperCase (s : string) : string :=
  match s with
  | EmptyString => EmptyString
  | String c s' => String (upper_char c) (toUpperCase s')
  end.

(** The class [\w\- ] of [sanitizeName]: letters, digits, underscore,
    hyphen and space. *)
Definition name_char (c : ascii) : bool :=
  let n := nat_of_ascii c in
  (((48 <=? n) && (n <=? 57)) || ((65 <=? n) && (n <=? 90)) || ((97 <=? n) && (n <=? 122))
   || (n =? 95) || (n =? 45) || (n =? 32))%nat.

Fixpoint keep_chars (f : ascii -> bool) (s : string) : string :=
  match s with
  | EmptyString => EmptyString
  | String c s' => if f c then String c (keep_chars f s') else keep_chars f s'
  end.

Definition sanitizeName (name : string) : string :=
  let n := String.substring 0 24 (if String.eqb name "" then "Player" else name) in
  keep_chars name_char n.

(** The closure variables of one connection.  [currentRoom] names the room
    object by its key in the registry: a room stays registered for as long
    as a player of a live connection is in it. *)
Record Session : Type := mkSession {
  socket : WebSocket;
  currentRoom : option string;
  selfId : option string
}.

(** What one handler run reads from the platform. *)
Record Env : Type := mkEnv {
  now : Z;
  pick : nat;
  randomUUID : string
}.

Section Router.

Variable vm : Sandbox.

Record Server : Type := mkServer {
  rooms : RoomsMap.t;
  host : Host vm
}.

(** The [data] of a message event: text that [JSON.parse] rejects, a
    message of the protocol, or JSON of no known [type]. *)
Inductive Data : Type :=
| Unparsable
| Parsed (msg : ToServer.t (Code vm))
| Unrecognised.

(** Runs a method on the room a session is in and stores the room back. *)
Definition in_room {A} (rid : string) (m : M Room.state A) (sv : Server)
    : option (Outcome A) * Server * list Out :=
  match RoomsMap.get rid (rooms sv) with
  | Some room =>
      let '(r, room', o) := m room in
      (Some r, mkServer (JSMap.set rid room' (rooms sv)) (host sv), o)
  | None => (None, sv, [])
  end.

Definition joined (c : Session) : option (string * string) :=
  match currentRoom c, selfId c with
  | Some rid, Some sid => if String.eqb sid "" then None else Some (rid, sid)
  | _, _ => None
  end.

(** The [message] listener of a connection. *)
Definition on_message (env : Env) (data : Data) (c : Session) (sv : Server)
    : Session * Server * list Out :=
  match data with
  | Unparsable => (c, sv, safeSend (socket c) (ToClient.error "Invalid message"))
  | Unrecognised => (c, sv, [])
  | Parsed (ToServer.join_room roomId name d tp) =>
      match currentRoom c with
      | Some _ => (c, sv, [])
      | None =>
          let rid := toUpperCase roomId in
          let difficulty := match d with Some d => d | None => Easy end in
          let topic := match tp with Some t => t | None => Arrays end in
          let '(room, rooms1) := RoomsMap.getOrCreate rid difficulty topic (rooms sv) in
          let pid := randomUUID env in
          let c1 := mkSession (socket c) (currentRoom c) (Some pid) in
          match Room.addPlayer (Player.mk pid (sanitizeName name) TeamA false 0 0 (socket c)) room with
          | (Returned _, room', o) =>
              (mkSession (socket c) (Some rid) (Some pid),
               mkServer (JSMap.set rid room' rooms1) (host sv),
               o ++ safeSend (socket c) (ToClient.room_state (Room.serializeRoom room') (Some pid)))%list
          | (Threw e, room', o) =>
              (c1, mkServer (JSMap.set rid room' rooms1) (host sv),
               o ++ safeSend (socket c) (ToClient.error (if String.eqb e "" then "Join failed" else e)))%list
          end
      end
  | Parsed (ToServer.ready b) =>
      match joined c with
      | Some (rid, sid) =>
          let '(_, sv', o) := in_room rid (Room.setReady (pick env) (now env) sid b) sv in (c, sv', o)
      | None => (c, sv, [])
      end
  | Parsed (ToServer.chat text) =>
      match joined c with
      | Some (rid, sid) =>
          let '(_, sv', o) := in_room rid (Room.handleChat sid (String.substring 0 400 text)) sv in (c, sv', o)
      | None => (c, sv, [])
      end
  | Parsed (ToServer.code_update _) => (c, sv, [])
  | Parsed (ToServer.cursor _ _) => (c, sv, [])
  | Parsed (ToServer.submit_solution code) =>
      match joined c with
      | Some (rid, sid) =>
          match in_room rid (Room.handleSubmit vm (now env) sid code (host sv)) sv with
          | (Some (Returned host'), sv', o) => (c, mkServer (rooms sv') host', o)
          | (_, sv', o) => (c, sv', o)
          end
      | None => (c, sv, [])
      end
  | Parsed ToServer.rematch =>
      match currentRoom c with
      | Some rid => let '(_, sv', o) := in_room rid Room.rematch sv in (c, sv', o)
      | None => (c, sv, [])
      end
  end.

(** The [close] listener of a connection. *)
Definition on_close (c : Session) (sv : Server) : Server * list Out :=
  match joined c with
  | Some (rid, sid) =>
      let '(_, sv', o) := in_room rid (Room.removePlayer sid) sv in
      (mkServer (RoomsMap.removeIfEmpty rid (rooms sv')) (host sv'), o)
  | None => (sv, [])
  end.

(** What the event loop delivers: a new connection, a message or the close
    of a connection, or a firing of the interval of a room. *)
Inductive Event : Type :=
| Connect (ws : WebSocket)
| Message (on : nat) (env : Env) (data : Data)
| Close (on : nat)
| Tick (rid : string) (at_time : Z).

Record World : Type := mkWorld {
  server : Server;
  sessions : list Session
}.

Definition session_of (n : nat) (w : World) : option Session :=
  find (fun c => Nat.eqb (conn (socket c)) n) (sessions w).

Definition put_session (c : Session) (l : list Session) : list Session :=
  map (fun c' => if Nat.eqb (conn (socket c')) (conn (socket c)) then c else c') l.

Definition drop_session (n : nat) (l : list Session) : list Session :=
  filter (fun c => negb (Nat.eqb (conn (socket c)) n)) l.

Definition step (w : World) (e : Event) : World * list Out :=
  match e with
  | Connect ws => (mkWorld (server w) (sessions w ++ [mkSession ws None None]), [])
  | Message n env data =>
      match session_of n w with
      | Some c =>
          let '(c', sv', o) := on_message env data c (server w) in
          (mkWorld sv' (put_session c' (sessions w)), o)
      | None => (w, [])
      end
  | Close n =>
      match session_of n w with
      | Some c =>
          let '(sv', o) := on_close c (server w) in
          (mkWorld sv' (drop_session n (sessions w)), o)
      | None => (w, [])
      end
  | Tick rid t =>
      let '(_, sv', o) := in_room rid (Room.timer_tick t) (server w) in
      (mkWorld sv' (sessions w), o)
  end.

Fixpoint run (w : World) (es : list Event) : World * list Out :=
  match es with
  | [] => (w, [])
  | e :: es' =>
      let '(w1, o1) := step w e in
      let '(w2, o2) := run w1 es' in
      (w2, o1 ++ o2)%list
  end.

Definition boot (h : Host vm) : World := mkWorld (mkServer [] h) [].

End Router.

Arguments Unparsable {vm}.
Arguments Unrecognised {vm}.
Arguments Parsed {vm} msg.
Arguments Connect {vm} ws.
Arguments Message {vm} on env data.
Arguments Close {vm} on.
Arguments Tick {vm} rid at_time.
Arguments rooms {vm} s.
Arguments host {vm} s.
Arguments server {vm} w.
Arguments sessions {vm} w.

(* ------------------------------------------------------------------ *)
(** ** A sandbox for a fragment of JavaScript *)

(** An instance of [Sandbox] for strict-mode scripts made of top-level
    [var] and [function] declarations, whose bodies assign globals and
    properties of the built-in objects, branch, return and throw.  There
    are no loops, so every run ends within its time budget.  Names of
    variables and functions are taken to differ from [sandbox_names], and
    the properties read or written on a built-in object to be new ones: its
    standard properties, [JSON.stringify] among them, stay what they are. *)
Module MiniJS.

(** The object-valued built-ins of [sandbox_names]. *)
Inductive Builtin : Type := Math | JSON | Number | String_ | Array | Object.

Definition builtin_name (o : Builtin) : string :=
  match o with
  | Math => "Math" | JSON => "JSON" | Number => "Number"
  | String_ => "String" | Array => "Array" | Object => "Object"
  end.

Definition Builtin_eqb (a b : Builtin) : bool := String.eqb (builtin_name a) (builtin_name b).

Inductive Expr : Type :=
| ELit (v : JSValue)                       (* a literal *)
| EArg (i : nat)                           (* the i-th parameter *)
| EGlobal (x : string)                     (* x *)
| EProp (o : Builtin) (x : string)         (* o.x, x not a standard property *)
| ECoin                                    (* Math.random() < 0.5 *)
| EIs (e : Expr) (lit : JSValue)           (* e === lit *)
| ECond (c a b : Expr).                    (* c ? a : b *)

Inductive Stmt : Type :=
| SAssign (x : string) (e : Expr)                  (* x = e; *)
| SPropAssign (o : Builtin) (x : string) (e : Expr) (* o.x = e; x as in EProp *)
| SIf (c : Expr) (yes no : list Stmt)              (* if (c) {yes} else {no} *)
| SReturn (e : Expr)                               (* return e; *)
| SThrow (message : string).                       (* throw new Error(message); *)

Inductive TopLevel : Type :=
| TVar (x : string) (e : Expr)                     (* var x = e; *)
| TFunction (f : string) (body : list Stmt).       (* function f(...) {body} *)

(** A submitted text: one the parser rejects, or a script. *)
Inductive Script : Type :=
| SyntaxError (message : string)
| Program (decls : list TopLevel).

Definition Store : Type := list (Builtin * string * JSValue).

(** The global object of one context: the script's globals, the bodies of
    its functions, the names taken from the host, and the properties put on
    built-ins that are the context's own. *)
Record Context : Type := mkContext {
  globals : JSMap.t JSValue;
  functions : JSMap.t (list Stmt);
  exposed : list string;
  own : Store
}.

(** The server side of the boundary: the properties put on the host's
    built-in objects, and the coming outcomes of [Math.random() < 0.5]. *)
Record Host : Type := mkHost {
  expando : Store;
  entropy : list bool
}.

Definition with_globals (g : JSMap.t JSValue) (c : Context) : Context :=
  mkContext g (functions c) (exposed c) (own c).
Definition with_functions (f : JSMap.t (list Stmt)) (c : Context) : Context :=
  mkContext (globals c) f (exposed c) (own c).
Definition with_own (s : Store) (c : Context) : Context :=
  mkContext (globals c) (functions c) (exposed c) s.

Definition createContext (names : list string) : Context := mkContext [] [] names [].

Definition is_exposed (o : Builtin) (c : Context) : bool :=
  existsb (String.eqb (builtin_name o)) (exposed c).

Definition store_get (o : Builtin) (x : string) (s : Store) : JSValue :=
  match find (fun e => Builtin_eqb (fst (fst e)) o && String.eqb (snd (fst e)) x) s with
  | Some e => snd e
  | None => VUndefined
  end.

Definition store_set (o : Builtin) (x : string) (v : JSValue) (s : Store) : Store :=
  (o, x, v) :: filter (fun e => negb (Builtin_eqb (fst (fst e)) o && String.eqb (snd (fst e)) x)) s.

(** ToBoolean. *)
Definition truthy_value (v : JSValue) : bool :=
  match v with
  | VUndefined | VNull => false
  | VBool b => b
  | VNum (NInt z) => negb (Z.eqb z 0)
  | VNum NNaN => false
  | VNum _ => true
  | VBigInt z => negb (Z.eqb z 0)
  | VStr s => negb (String.eqb s "")
  | VFun _ | VArr _ | VObj _ => true
  end.

(** [v === lit] for a literal: a fresh array or object literal is identical
    to nothing. *)
Definition strict_equal (v lit : JSValue) : bool :=
  match v, lit with
  | VUndefined, VUndefined | VNull, VNull => true
  | VBool a, VBool b => Bool.eqb a b
  | VNum (NInt a), VNum (NInt b) => Z.eqb a b
  | VNum NPosInf, VNum NPosInf | VNum NNegInf, VNum NNegInf => true
  | VBigInt a, VBigInt b => Z.eqb a b
  | VStr a, VStr b => String.eqb a b
  | _, _ => false
  end.

Definition has_no_text (v : JSValue) : bool :=
  match v with VUndefined | VFun _ => true | _ => false end.

(** The value an argument has after its trip through JSON text. *)
Fixpoint reparse (v : JSValue) : string + JSValue :=
  match v with
  | VUndefined | VFun _ => inr VNull
  | VNum (NInt z) => inr (int z)
  | VNum _ => inr VNull
  | VBigInt _ => inl bigint_message
  | VArr items =>
      let fix each (l : list JSValue) : string + list JSValue :=
        match l with
        | [] => inr []
        | x :: l' =>
            match reparse x with
            | inl m => inl m
            | inr y =>
                match each l' with
                | inl m => inl m
                | inr ys => inr (y :: ys)
                end
            end
        end in
      match each items with inl m => inl m | inr ys => inr (VArr ys) end
  | VObj props =>
      let fix each (l : list (string * JSValue)) : string + list (string * JSValue) :=
        match l with
        | [] => inr []
        | (k, x) :: l' =>
            match reparse x with
            | inl m => inl m
            | inr y =>
                match each l' with
                | inl m => inl m
                | inr ys => inr (if has_no_text x then ys else (k, y) :: ys)
                end
            end
        end in
      match each props with inl m => inl m | inr ys => inr (VObj ys) end
  | other => inr other
  end.

Fixpoint reparse_all (l : list JSValue) : string + list JSValue :=
  match l with
  | [] => inr []
  | x :: l' =>
      match reparse x, reparse_all l' with
      | inl m, _ => inl m
      | _, inl m => inl m
      | inr y, inr ys => inr (y :: ys)
      end
  end.

Section Eval.

Variable actuals : list JSValue.

Fixpoint eval (e : Expr) (c : Context) (h : Host) : Completion * Host :=
  match e with
  | ELit v => (Normal v, h)
  | EArg i => (Normal (nth i actuals VUndefined), h)
  | EGlobal x =>
      match JSMap.get x (globals c) with
      | Some v => (Normal v, h)
      | None => (Abrupt (x ++ " is not defined"), h)
      end
  | EProp o x =>
      (Normal (store_get o x (if is_exposed o c then expando h else own c)), h)
  | ECoin =>
      match entropy h with
      | b :: rest => (Normal (VBool b), mkHost (expando h) rest)
      | [] => (Normal (VBool false), h)
      end
  | EIs e' lit =>
      match eval e' c h with
      | (Normal v, h') => (Normal (VBool (strict_equal v lit)), h')
      | abrupt => abrupt
      end
  | ECond t a b =>
      match eval t c h with
      | (Normal v, h') => if truthy_value v then eval a c h' else eval b c h'
      | abrupt => abrupt
      end
  end.

(** How a statement ends. *)
Inductive Flow : Type :=
| Next
| Return (v : JSValue)
| Throw (text : string).

Fixpoint exec (s : Stmt) (c : Context) (h : Host) : Flow * Context * Host :=
  let fix block (l : list Stmt) (c : Context) (h : Host) : Flow * Context * Host :=
    match l with
    | [] => (Next, c, h)
    | s' :: l' =>
        match exec s' c h with
        | (Next, c', h') => block l' c' h'
        | ended => ended
        end
    end in
  match s with
  | SAssign x e =>
      match eval e c h with
      | (Normal v, h') =>
          if JSMap.has x (globals c)
          then (Next, with_globals (JSMap.set x v (globals c)) c, h')
          else (Throw (x ++ " is not defined"), c, h')
      | (Abrupt t, h') => (Throw t, c, h')
      end
  | SPropAssign o x e =>
      match eval e c h with
      | (Normal v, h') =>
          if is_exposed o c
          then (Next, c, mkHost (store_set o x v (expando h')) (entropy h'))
          else (Next, with_own (store_set o x v (own c)) c, h')
      | (Abrupt t, h') => (Throw t, c, h')
      end
  | SIf t yes no =>
      match eval t c h with
      | (Normal v, h') => if truthy_value v then block yes c h' else block no c h'
      | (Abrupt t, h') => (Throw t, c, h')
      end
  | SReturn e =>
      match eval e c h with
      | (Normal v, h') => (Return v, c, h')
      | (Abrupt t, h') => (Throw t, c, h')
      end
  | SThrow m => (Throw m, c, h)
  end.

Fixpoint exec_block (l : list Stmt) (c : Context) (h : Host) : Flow * Context * Host :=
  match l with
  | [] => (Next, c, h)
  | s :: l' =>
      match exec s c h with
      | (Next, c', h') => exec_block l' c' h'
      | ended => ended
      end
  end.

End Eval.

(** Function declarations are bound before the first statement runs. *)
Fixpoint hoist (decls : list TopLevel) (c : Context) : Context :=
  match decls with
  | [] => c
  | TFunction f body :: rest =>
      hoist rest (with_functions (JSMap.set f body (functions c))
                                 (with_globals (JSMap.set f (VFun f) (globals c)) c))
  | TVar x _ :: rest =>
      hoist rest (if JSMap.has x (globals c) then c
                  else with_globals (JSMap.set x VUndefined (globals c)) c)
  end.

Fixpoint load (decls : list TopLevel) (c : Context) (h : Host) : Completion * Context * Host :=
  match decls with
  | [] => (Normal VUndefined, c, h)
  | TFunction _ _ :: rest => load rest c h
  | TVar x e :: rest =>
      match eval [] e c h with
      | (Normal v, h') => load rest (with_globals (JSMap.set x v (globals c)) c) h'
      | (Abrupt t, h') => (Abrupt t, c, h')
      end
  end.

Definition runWrapped (code : Script) (f : string) (c : Context) (h : Host)
    : Completion * Context * Host :=
  match code with
  | SyntaxError m => (Abrupt m, c, h)
  | Program decls =>
      match load decls (hoist decls c) h with
      | (Normal _, c', h') =>
          (Normal (match JSMap.get f (globals c') with
                   | Some (VFun g) => VFun g
                   | _ => VNull
                   end), c', h')
      | abrupt => abrupt
      end
  end.

Definition runCall (f : string) (args : list JSValue) (c : Context) (h : Host)
    : Completion * Context * Host :=
  match reparse_all args with
  | inl m => (Abrupt m, c, h)
  | inr actuals =>
      match JSMap.get f (globals c) with
      | None => (Abrupt (f ++ " is not defined"), c, h)
      | Some (VFun g) =>
          match JSMap.get g (functions c) with
          | None => (Abrupt (f ++ " is not a function"), c, h)
          | Some body =>
              match exec_block actuals body c h with
              | (Next, c', h') => (Normal VUndefined, c', h')
              | (Return v, c', h') => (Normal v, c', h')
              | (Throw t, c', h') => (Abrupt t, c', h')
              end
          end
      | Some _ => (Abrupt (f ++ " is not a function"), c, h)
      end
  end.

Definition sandbox : Sandbox :=
  mkSandbox Script Context Host createContext runWrapped runCall.

End MiniJS.

(* ------------------------------------------------------------------ *)
(** ** Vocabulary of the statements *)

(** Who is in a room and on which team. *)
Definition teams (r : Room.state) : list (string * TeamKey) :=
  map (fun e => (fst e, Player.team (snd e))) (Room.players r).

(** One public operation on a room.  A player handed to [addPlayer] has an
    identifier fresh from [crypto.randomUUID()], so one no player of the
    room has. *)
Inductive room_step : Room.state -> Room.state -> Prop :=
| step_addPlayer (p : Player.t) (r : Room.state) :
    JSMap.has (Player.id p) (Room.players r) = false ->
    room_step r (state_after (Room.addPlayer p r))
| step_removePlayer (pid : string) (r : Room.state) :
    room_step r (state_after (Room.removePlayer pid r))
| step_setReady (pick : nat) (now : Z) (pid : string) (b : bool) (r : Room.state) :
    room_step r (state_after (Room.setReady pick now pid b r))
| step_handleChat (pid text : string) (r : Room.state) :
    room_step r (state_after (Room.handleChat pid text r))
| step_handleSubmit (vm : Sandbox) (now : Z) (pid : string) (code : Code vm) (h : Host vm)
    (r : Room.state) :
    room_step r (state_after (Room.handleSubmit vm now pid code h r))
| step_timer_tick (now : Z) (r : Room.state) :
    room_step r (state_after (Room.timer_tick now r))
| step_rematch (r : Room.state) :
    room_step r (state_after (Room.rematch r)).

(** The states a room goes through from its construction. *)
Inductive reachable : Room.state -> Prop :=
| reach_new (rid : string) (d : Difficulty) (t : Topic) : reachable (Room.new rid d t)
| reach_step (r r' : Room.state) : reachable r -> room_step r r' -> reachable r'.

(** The pool that [getRandomProblem] draws from for a room. *)
Definition pool_of (r : Room.state) : list Problem :=
  filter (fun p => Difficulty_eqb (problem_difficulty p) (Room.difficulty r)
                   && Topic_eqb (problem_topic p) (Room.topic r)) repo.

(** What [rematch] leaves of a player. *)
Definition reset_player (p : Player.t) : Player.t :=
  Player.mk (Player.id p) (Player.name p) (Player.team p) false 0 0 (Player.ws p).

Definition is_room_state_send (o : Out) : bool :=
  match o with
  | Send _ m => ToClient.is_room_state m
  | UnhandledRejection _ => false
  end.

Definition is_error_send (o : Out) : bool :=
  match o with
  | Send _ m => ToClient.is_error m
  | UnhandledRejection _ => false
  end.

Definition is_game_over_send (o : Out) : bool :=
  match o with
  | Send _ m => ToClient.is_game_over m
  | UnhandledRejection _ => false
  end.

Definition is_unhandled (o : Out) : bool :=
  match o with
  | Send _ _ => false
  | UnhandledRejection _ => true
  end.

(** [keeps R m]: the state a method ends in is related by [R] to the one it
    started in, also when it throws. *)
Definition keeps {S : Type} (R : S -> S -> Prop) {A : Type} (m : M S A) : Prop :=
  forall s, R s (state_after (m s)).

(** The same players on the same teams. *)
Definition same_teams (r r' : Room.state) : Prop := teams r' = teams r.

(** The team [addPlayer] picks in room [r]. *)
Definition team_for (r : Room.state) : TeamKey :=
  if (Room.count_team TeamA r <=? Room.count_team TeamB r)%nat then TeamA else TeamB.

(** The room [r] once [addPlayer] has let [p] in. *)
Definition joined_room (p : Player.t) (r : Room.state) : Room.state :=
  Room.with_players
    (JSMap.set (Player.id p) (Player.with_team (team_for r) p) (Room.players r)) r.

(** No team ever has more than two members. *)
Definition teams_within_two (r : Room.state) : Prop :=
  Room.count_team TeamA r <= 2 /\ Room.count_team TeamB r <= 2.

(** The invariant of a running round. *)
Definition has_round (r : Room.state) : Prop :=
  Room.started r = true -> Room.problem r <> None /\ Room.endAt r <> None.

(** A change that keeps the category of a room and, if the category has a
    problem, the invariant of a running round. *)
Definition sound_step (r r' : Room.state) : Prop :=
  Room.difficulty r' = Room.difficulty r
  /\ Room.topic r' = Room.topic r
  /\ (pool_of r <> [] -> has_round r -> has_round r').

Section Passing.

Variable vm : Sandbox.

(** The context and host state after the tests [ts] have all run and
    matched; [None] if one of them did not. *)
Fixpoint passes (fname : string) (ts : list Test) (ctx : Context vm) (h : Host vm)
    : option (Context vm * Host vm) :=
  match ts with
  | [] => Some (ctx, h)
  | t :: rest =>
      match runCall vm fname (args t) ctx h with
      | (Normal out, ctx', h') =>
          match deepEqual out (expected t) with
          | Same => passes fname rest ctx' h'
          | _ => None
          end
      | _ => None
      end
  end.

End Passing.

(** Scripts that touch no built-in object and do not draw from
    [Math.random]. *)
Module Pure.
Import MiniJS.







End Pure.

(** *** Scenarios *)
Module Scenario.
Import MiniJS.

Definition vm : Sandbox := MiniJS.sandbox.
Definition quiet : MiniJS.Host := mkHost [] [].
Definition sock (n : nat) : WebSocket := mkWebSocket n true.

Definition join (n : nat) (uuid room : string) (d : option Difficulty) (t : option Topic) : Event vm :=
  Message n (mkEnv 1000 0 uuid) (Parsed (ToServer.join_room room "ada" d t)).

Definition ready (n : nat) (at_time : Z) : Event vm :=
  Message n (mkEnv at_time 0 "") (Parsed (ToServer.ready true)).

(** Four clients connect and join room [abcd]; the first join fixes the
    category.  Then the first three declare themselves ready. *)
Definition gather (d : option Difficulty) (t : option Topic) : list (Event vm) :=
  [ Connect (sock 1); Connect (sock 2); Connect (sock 3); Connect (sock 4);
    join 1 "u1" "abcd" d t; join 2 "u2" "abcd" None None;
    join 3 "u3" "abcd" None None; join 4 "u4" "abcd" None None;
    ready 1 2000; ready 2 3000; ready 3 4000 ].

(** The world in which the fourth player of a Hard/Arrays room is about to
    declare itself ready. *)
Definition hard_arrays : World vm := fst (run vm (boot vm quiet) (gather (Some Hard) (Some Arrays))).

(** The same for the default category, Easy/Arrays. *)
Definition easy_arrays : World vm := fst (run vm (boot vm quiet) (gather None None)).

Definition room_abcd (w : World vm) : Room.state :=
  match RoomsMap.get "ABCD" (rooms (server w)) with
  | Some r => r
  | None => Room.new "" Easy Arrays
  end.

(** The Easy/Arrays room once its fourth player is ready: the round runs. *)
Definition playing : Room.state := room_abcd (fst (step vm easy_arrays (ready 4 5000))).

Definition pair (a b : Z) : JSValue := VArr [int a; int b].


(** var n = 0;
    function twoSum() {
      if (n === 0) { n = 1; return [0,1]; } else {
      if (n === 1) { n = 2; return [1,2]; } else { return [0,1]; } } } *)
Definition counting : Script :=
  Program [ TVar "n" (ELit (int 0));
            TFunction "twoSum"
              [ SIf (EIs (EGlobal "n") (int 0))
                    [SAssign "n" (ELit (int 1)); SReturn (ELit (pair 0 1))]
                    [SIf (EIs (EGlobal "n") (int 1))
                         [SAssign "n" (ELit (int 2)); SReturn (ELit (pair 1 2))]
                         [SReturn (ELit (pair 0 1))]] ] ].


(** function coin() { return Math.random() < 0.5; } *)
Definition tossing : Script := Program [TFunction "coin" [SReturn ECoin]].

Definition coin_problem : Problem :=
  mkProblem "coin" "Coin" "" Easy Arrays "coin" [mkTest [] (VBool true)].

Definition only (t : Test) (p : Problem) : Problem :=
  mkProblem (problem_id p) (title p) (boilerplate p) (problem_difficulty p) (problem_topic p)
            (functionName p) [t].


End Scenario.

(** The player object the join handler builds for connection [n]. *)
Definition guest (n : nat) (uuid : string) : Player.t :=
  Player.mk uuid "ada" TeamA false 0 0 (mkWebSocket n true).

(** Players u1 and u3 join team A and u2 team B; u1 leaves; u4 then joins
    team A again, and u5 would join team B. *)
Definition after_departure : Room.state :=
  state_after (Room.addPlayer (guest 4 "u4")
    (state_after (Room.removePlayer "u1"
      (state_after (Room.addPlayer (guest 3 "u3")
        (state_after (Room.addPlayer (guest 2 "u2")
          (state_after (Room.addPlayer (guest 1 "u1") (Room.new "ABCD" Easy Arrays)))))))))).

(** The Hard/Arrays room as its fourth player's readiness has been
    recorded, before the start condition is looked at. *)
Definition all_ready : Room.state :=
  Room.with_players
    (JSMap.adjust (Player.with_ready true) "u4" (Room.players (Scenario.room_abcd Scenario.hard_arrays)))
    (Scenario.room_abcd Scenario.hard_arrays).

(** The same room after the fourth [ready] message has been handled. *)
Definition stuck : Room.state :=
  Scenario.room_abcd (fst (step Scenario.vm Scenario.hard_arrays (Scenario.ready 4 5000))).

(** The first client of the Easy/Arrays room asks to join room [wxyz]. *)
Definition rejoin : Event Scenario.vm := Scenario.join 1 "u9" "wxyz" (Some Hard) (Some DP).

(** *** Operations, closed forms and invariants *)

(** Every character of the string satisfies [f]. *)
Fixpoint string_forall (f : ascii -> bool) (s : string) : bool :=
  match s with
  | EmptyString => true
  | String c s' => f c && string_forall f s'
  end.

(** The text an array element is written as. *)
Definition element_text (v : JSValue) : string + string :=
  match stringify v with
  | SerializeError m => inl m
  | NoText => inr "null"
  | Text s => inr s
  end.

(** The texts of the elements of an array, or the first error. *)
Fixpoint element_texts (l : list JSValue) : string + list string :=
  match l with
  | [] => inr []
  | x :: l' =>
      match element_text x with
      | inl m => inl m
      | inr s =>
          match element_texts l' with
          | inl m => inl m
          | inr ps => inr (s :: ps)
          end
      end
  end.

(** The values with no JSON text of their own, and [null]. *)
Definition written_null (v : JSValue) : bool :=
  match v with
  | VUndefined | VNull | VFun _ => true
  | VNum NNaN | VNum NPosInf | VNum NNegInf => true
  | _ => false
  end.


(** The public operations of a room, and the firing of its interval. *)
Inductive RoomOp : Type :=
| OpAddPlayer (p : Player.t)
| OpRemovePlayer (pid : string)
| OpSetReady (pick : nat) (now : Z) (pid : string) (ready : bool)
| OpHandleChat (fromId text : string)
| OpHandleSubmit (vm : Sandbox) (now : Z) (fromId : string) (code : Code vm) (h : Host vm)
| OpTimerTick (now : Z)
| OpRematch.

(** The result of a method with its return value dropped. *)
Definition forget {S A} (r : Outcome A * S * list Out) : Outcome unit * S * list Out :=
  match r with
  | (Returned _, s, o) => (Returned tt, s, o)
  | (Threw e, s, o) => (Threw e, s, o)
  end.

(** What an operation does to a room. *)
Definition perform (op : RoomOp) (r : Room.state) : Outcome unit * Room.state * list Out :=
  match op with
  | OpAddPlayer p => Room.addPlayer p r
  | OpRemovePlayer pid => Room.removePlayer pid r
  | OpSetReady pick now pid b => Room.setReady pick now pid b r
  | OpHandleChat pid text => Room.handleChat pid text r
  | OpHandleSubmit vm now pid code h => forget (Room.handleSubmit vm now pid code h r)
  | OpTimerTick now => Room.timer_tick now r
  | OpRematch => Room.rematch r
  end.

(** The sockets of the players of a room. *)
Definition sockets (r : Room.state) : list nat :=
  map (fun p => conn (Player.ws p)) (JSMap.values (Room.players r)).

(** Every write of the trace goes to one of the sockets [S]. *)
Definition sent_within (S : list nat) (o : list Out) : bool :=
  forallb (fun e => match e with
                    | Send n _ => existsb (Nat.eqb n) S
                    | UnhandledRejection _ => true
                    end) o.

(** The room once a round is concluded with winner [w]. *)
Definition concluded (w : option TeamKey) (r : Room.state) : Room.state :=
  Room.with_timer false (Room.with_winner w (Room.with_started false r)).

(** The time [finish] reports. *)
Definition remaining (now : Z) (r : Room.state) : Z :=
  if truthy (Room.endAt r)
  then Z.max 0 (match Room.endAt r with Some e => e | None => 0 end - now)
  else 0%Z.

(** The room as [start] announces it: round on, problem and deadline set. *)
Definition announced (pb : Problem) (now : Z) (r : Room.state) : Room.state :=
  Room.with_endAt (Some (now + GAME_SECONDS * 1000)%Z)
    (Room.with_problem (Some pb) (Room.with_winner None (Room.with_started true r))).

(** The problem [start] draws for a room. *)
Definition drawn (pick : nat) (r : Room.state) (first : Problem) : Problem :=
  nth (pick mod List.length (pool_of r)) (pool_of r) first.

(** A room with the readiness of [pid] set. *)
Definition with_ready_of (pid : string) (b : bool) (r : Room.state) : Room.state :=
  Room.with_players (JSMap.adjust (Player.with_ready b) pid (Room.players r)) r.

(** The room with one more attempt counted for [pid]. *)
Definition tried (pid : string) (r : Room.state) : Room.state :=
  Room.with_players (JSMap.adjust Room.bump_attempts pid (Room.players r)) r.

(** The same with one more error counted as well. *)
Definition failed (pid : string) (r : Room.state) : Room.state :=
  Room.with_players (JSMap.adjust Room.bump_errors pid (Room.players (tried pid r))) (tried pid r).

(** What of a room belongs to the round. *)
Definition round_of (r : Room.state) : bool * option Problem * option Z * bool :=
  (Room.started r, Room.problem r, Room.endAt r, Room.timer r).

(** A running timer belongs to a started round with a deadline. *)
Definition timer_sound (r : Room.state) : Prop :=
  Room.timer r = true -> Room.started r = true /\ truthy (Room.endAt r) = true.

(** The problem a room holds is one of its category. *)
Definition problem_sound (r : Room.state) : Prop :=
  forall pb, Room.problem r = Some pb -> In pb (pool_of r).




(** An operation as the connection handlers issue it: a joining player
    starts with no attempt and no error counted. *)
Definition from_handler (op : RoomOp) : Prop :=
  match op with
  | OpAddPlayer p => Player.attempts p = 0 /\ Player.errors p = 0
  | _ => True
  end.

(** No player has more errors than attempts counted. *)
Definition counters_sound (r : Room.state) : Prop :=
  Forall (fun p => Player.errors p <= Player.attempts p) (JSMap.values (Room.players r)).

(** What holds of every room the server keeps. *)
Definition room_sound (r : Room.state) : Prop :=
  counters_sound r /\ timer_sound r /\ problem_sound r /\ (pool_of r <> [] -> has_round r).

(** Every room of a registry is sound. *)
Definition rooms_sound (rooms : RoomsMap.t) : Prop := Forall room_sound (JSMap.values rooms).

(* ================================================================== *)
(** * Properties *)

(** ** JSON text *)

Example stringify_array :
  stringify (VArr [int 0; VUndefined; VStr "a"; VNum NNaN]) = Text ("[0,null," ++ dquote ++ "a" ++ dquote ++ ",null]").
Proof. reflexivity. Qed.

Example stringify_object :
  stringify (VObj [("val", int 3); ("left", VNull); ("f", VFun "g")])
  = Text ("{" ++ quote "val" ++ ":3," ++ quote "left" ++ ":null}").
Proof. reflexivity. Qed.

Example deepEqual_key_order :
  deepEqual (VObj [("a", int 1); ("b", int 2)]) (VObj [("b", int 2); ("a", int 1)]) = Different.
Proof. reflexivity. Qed.

Example deepEqual_negative : deepEqual (int (-12)) (int (-12)) = Same /\ stringify (int (-12)) = Text "-12".
Proof. split; reflexivity. Qed.

Example stringify_escapes :
  stringify (VStr ("a" ++ dquote ++ "b" ++ char 10)) = Text (dquote ++ "a" ++ backslash ++ dquote ++ "b" ++ backslash ++ "n" ++ dquote).
Proof. reflexivity. Qed.

Example deepEqual_nan_null : deepEqual (VNum NNaN) VNull = Same.
Proof. reflexivity. Qed.

Example deepEqual_bigint : deepEqual (VBigInt 1) (int 1) = CompareError bigint_message.
Proof. reflexivity. Qed.



Lemma deepEqual_Different (a b : JSValue) :
  deepEqual a b = Different <->
  stringify a <> stringify b /\ (forall m, stringify a <> SerializeError m)
                            /\ (forall m, stringify b <> SerializeError m).
Proof.
  unfold deepEqual.
  destruct (stringify a) as [s| |m] eqn:Ea, (stringify b) as [t| |m'] eqn:Eb; simpl;
    try (destruct (String.eqb_spec s t)); split;
    try (intros H; discriminate H);
    try (intros _; repeat split; congruence);
    try (intros (H & Ha & Hb); solve [ exfalso; eapply Ha; reflexivity
                                     | exfalso; eapply Hb; reflexivity
                                     | exfalso; apply H; congruence ]).
Qed.

(* ------------------------------------------------------------------ *)
(** ** The harness *)

Section HarnessFacts.

Variable vm : Sandbox.

(** Tests that ran and matched hand their context on to the rest. *)
Lemma run_tests_app (f : string) (pre rest : list Test) (ctx c1 : Context vm) (h h1 : Host vm) :
  passes vm f pre ctx h = Some (c1, h1) ->
  run_tests vm f (pre ++ rest)%list ctx h = run_tests vm f rest c1 h1.
Proof.
  revert ctx h. induction pre as [|t pre IH]; intros ctx h Hp; simpl in *.
  - injection Hp as -> ->. reflexivity.
  - destruct (runCall vm f (args t) ctx h) as [[c ctx'] h'].
    destruct c as [out|e]; [|discriminate Hp].
    destruct (deepEqual out (expected t)); try discriminate Hp.
    apply IH. exact Hp.
Qed.

(** Each test is called in the context its predecessor left. *)
Lemma run_tests_threads (f : string) (t : Test) (rest : list Test) (ctx ctx' : Context vm)
    (h h' : Host vm) (out : JSValue) :
  runCall vm f (args t) ctx h = (Normal out, ctx', h') ->
  deepEqual out (expected t) = Same ->
  run_tests vm f (t :: rest) ctx h = run_tests vm f rest ctx' h'.
Proof. intros Hc Hd. simpl. rewrite Hc, Hd. reflexivity. Qed.

Lemma run_tests_all_pass (f : string) (ts : list Test) (ctx c1 : Context vm) (h h1 : Host vm) :
  passes vm f ts ctx h = Some (c1, h1) ->
  run_tests vm f ts ctx h = (Resolved true, h1).
Proof.
  intros Hp. rewrite <- (app_nil_r ts). rewrite (run_tests_app _ _ _ _ _ _ _ Hp). reflexivity.
Qed.

End HarnessFacts.



(** C10.  One call of [evaluateSolution] runs all its test vectors in the
    one context it created: for the script [Scenario.counting], which counts
    its calls in a global variable, the whole Two Sum problem passes, its
    second test vector included, while that same vector evaluated alone, in
    a context of its own, fails. *)
Theorem tests_share_one_context :
  exists (code : Code Scenario.vm) (pb : Problem) (first later : Test) (rest : list Test)
         (h : Host Scenario.vm),
    tests pb = first :: later :: rest
    /\ evaluateSolution Scenario.vm code pb h = (Resolved true, h)
    /\ evaluateSolution Scenario.vm code (Scenario.only later pb) h = (Resolved false, h).
Proof.
  exists Scenario.counting, Seed.twoSum.
  do 3 eexists. exists Scenario.quiet.
  split; [reflexivity|]. split; reflexivity.
Qed.


(** A script that asks [Math.random] is judged by the draw. *)
Example evaluate_by_chance :
  fst (evaluateSolution Scenario.vm Scenario.tossing Scenario.coin_problem (MiniJS.mkHost [] [true]))
    = Resolved true
  /\ fst (evaluateSolution Scenario.vm Scenario.tossing Scenario.coin_problem (MiniJS.mkHost [] [false]))
    = Resolved false.
Proof. split; reflexivity. Qed.

(* ------------------------------------------------------------------ *)
(** ** Maps *)

Section MapFacts.

Context {V : Type}.
Implicit Types (m : JSMap.t V) (k : string) (v : V).

Lemma get_set m k k' v :
  JSMap.get k' (JSMap.set k v m) = if String.eqb k k' then Some v else JSMap.get k' m.
Proof.
  unfold JSMap.get. induction m as [|[k0 v0] m IH]; simpl.
  - destruct (String.eqb k k'); reflexivity.
  - destruct (String.eqb_spec k0 k) as [->|Hne]; simpl.
    + destruct (String.eqb k k'); reflexivity.
    + destruct (String.eqb_spec k0 k') as [->|Hne'].
      * destruct (String.eqb_spec k k'); [congruence | reflexivity].
      * exact IH.
Qed.

Lemma has_get m k : JSMap.has k m = match JSMap.get k m with Some _ => true | None => false end.
Proof.
  unfold JSMap.has, JSMap.get. induction m as [|[k0 v0] m IH]; simpl; [reflexivity|].
  destruct (String.eqb k0 k); simpl; [reflexivity | exact IH].
Qed.

(** A key the map does not have is appended. *)
Lemma set_fresh m k v : JSMap.has k m = false -> JSMap.set k v m = (m ++ [(k, v)])%list.
Proof.
  unfold JSMap.has. induction m as [|[k0 v0] m IH]; simpl; [reflexivity|].
  intros H. apply orb_false_iff in H as [H0 H1]. rewrite H0. f_equal. exact (IH H1).
Qed.

Lemma size_set_present m k v : JSMap.has k m = true -> JSMap.size (JSMap.set k v m) = JSMap.size m.
Proof.
  unfold JSMap.has, JSMap.size. induction m as [|[k0 v0] m IH]; simpl; [discriminate|].
  destruct (String.eqb k0 k); simpl; [reflexivity|]. intros H. f_equal. exact (IH H).
Qed.


Lemma get_adjust m k k' (f : V -> V) :
  JSMap.get k' (JSMap.adjust f k m)
  = match JSMap.get k' m with
    | Some v => Some (if String.eqb k' k then f v else v)
    | None => None
    end.
Proof.
  unfold JSMap.get, JSMap.adjust. induction m as [|[k0 v0] m IH]; simpl; [reflexivity|].
  destruct (String.eqb_spec k0 k) as [->|Hne]; simpl.
  - destruct (String.eqb_spec k k') as [->|Hne']; simpl.
    + rewrite String.eqb_refl. reflexivity.
    + exact IH.
  - destruct (String.eqb_spec k0 k') as [->|Hne']; simpl.
    + destruct (String.eqb_spec k' k); [congruence | reflexivity].
    + exact IH.
Qed.

End MapFacts.

(* ------------------------------------------------------------------ *)
(** ** Scripts that leave the host alone *)

Module PureFacts.
Import MiniJS.
Import Pure.

(** Induction on statements that reaches into the branches of [SIf]. *)
Section StmtInd.

Variable P : Stmt -> Prop.
Hypothesis P_assign : forall x e, P (SAssign x e).
Hypothesis P_prop : forall o x e, P (SPropAssign o x e).
Hypothesis P_if : forall c yes no, Forall P yes -> Forall P no -> P (SIf c yes no).
Hypothesis P_return : forall e, P (SReturn e).
Hypothesis P_throw : forall m, P (SThrow m).


End StmtInd.

















End PureFacts.



(* ------------------------------------------------------------------ *)
(** ** What a method leaves alone *)

Section Frame.

Context {S : Type} (R : S -> S -> Prop).
Hypothesis R_refl : forall s, R s s.
Hypothesis R_trans : forall s1 s2 s3, R s1 s2 -> R s2 s3 -> R s1 s3.

Lemma keeps_ret {A} (a : A) : keeps R (ret a).
Proof. intros s. apply R_refl. Qed.

Lemma keeps_get : keeps R get.
Proof. intros s. apply R_refl. Qed.

Lemma keeps_emit (o : list Out) : keeps R (emit o).
Proof. intros s. apply R_refl. Qed.

Lemma keeps_throw {A} (e : string) : keeps R (@throw S A e).
Proof. intros s. apply R_refl. Qed.

Lemma keeps_await {A} (p : Promise A) : keeps R (await p).
Proof. destruct p; intros s; apply R_refl. Qed.

Lemma keeps_modify (f : S -> S) : (forall s, R s (f s)) -> keeps R (modify f).
Proof. intros H s. apply H. Qed.

Lemma keeps_bind {A B} (m : M S A) (k : A -> M S B) :
  keeps R m -> (forall a, keeps R (k a)) -> keeps R (bind m k).
Proof.
  intros Hm Hk s. unfold bind, state_after. specialize (Hm s). unfold state_after in Hm.
  destruct (m s) as [[[a|e] s1] o1]; simpl in *; [|exact Hm].
  specialize (Hk a s1). unfold state_after in Hk.
  destruct (k a s1) as [[r s2] o2]; simpl in *. eapply R_trans; eassumption.
Qed.

Lemma keeps_detached (m : M S unit) : keeps R m -> keeps R (detached m).
Proof.
  intros Hm s. unfold detached, state_after. specialize (Hm s). unfold state_after in Hm.
  destruct (m s) as [[[a|e] s1] o1]; exact Hm.
Qed.

End Frame.

(** Splits a method along its binds and branches, leaving the writes. *)
Ltac frame R_refl R_trans :=
  repeat first
    [ apply (keeps_ret _ R_refl)
    | apply (keeps_get _ R_refl)
    | apply (keeps_emit _ R_refl)
    | apply (keeps_throw _ R_refl)
    | apply (keeps_await _ R_refl)
    | apply (keeps_detached _)
    | apply (keeps_bind _ R_trans); [ | intro ]
    | match goal with
      | |- keeps _ (if ?b then _ else _) => destruct b
      | |- keeps _ (match ?x with _ => _ end) => destruct x
      | |- keeps _ (let '(_, _) := ?x in _) => destruct x
      end
    | apply (keeps_modify _); intro; try reflexivity ].

(** *** Membership and teams *)

Lemma same_teams_refl r : same_teams r r.
Proof. reflexivity. Qed.

Lemma same_teams_trans r1 r2 r3 : same_teams r1 r2 -> same_teams r2 r3 -> same_teams r1 r3.
Proof. unfold same_teams. congruence. Qed.

Ltac frame_teams := frame same_teams_refl same_teams_trans.

Lemma teams_adjust (f : Player.t -> Player.t) (k : string) (r : Room.state) :
  (forall p, Player.team (f p) = Player.team p) ->
  same_teams r (Room.with_players (JSMap.adjust f k (Room.players r)) r).
Proof.
  intros Hf. unfold same_teams, teams, JSMap.adjust. simpl. rewrite map_map.
  apply map_ext. intros [k0 p]. simpl. destruct (String.eqb k0 k); simpl; [rewrite Hf|]; reflexivity.
Qed.

Ltac solve_teams :=
  frame_teams;
  try (apply teams_adjust; reflexivity);
  try (unfold same_teams, teams; simpl; rewrite ?map_map; reflexivity).

Lemma finish_teams now w : keeps same_teams (Room.finish now w).
Proof. unfold Room.finish. solve_teams. Qed.

Lemma start_teams pick now : keeps same_teams (Room.start pick now).
Proof. unfold Room.start. solve_teams. Qed.

Lemma setReady_teams pick now pid b : keeps same_teams (Room.setReady pick now pid b).
Proof. unfold Room.setReady. solve_teams. Qed.

Lemma handleChat_teams pid text : keeps same_teams (Room.handleChat pid text).
Proof. unfold Room.handleChat. solve_teams. Qed.

Lemma timer_tick_teams now : keeps same_teams (Room.timer_tick now).
Proof. unfold Room.timer_tick. solve_teams. Qed.

Lemma rematch_teams : keeps same_teams Room.rematch.
Proof. unfold Room.rematch. solve_teams. Qed.

Lemma handleSubmit_teams vm now pid code h : keeps same_teams (Room.handleSubmit vm now pid code h).
Proof. unfold Room.handleSubmit. solve_teams. Qed.

(** *** Joining and leaving *)

Lemma addPlayer_full (p : Player.t) (r : Room.state) :
  4 <= JSMap.size (Room.players r) ->
  Room.addPlayer p r = (Threw "Room full", r, []).
Proof.
  intros H. unfold Room.addPlayer, bind, get. cbv beta iota.
  apply Nat.leb_le in H. rewrite H. reflexivity.
Qed.

Lemma addPlayer_joins (p : Player.t) (r : Room.state) :
  JSMap.size (Room.players r) < 4 ->
  Room.addPlayer p r
  = (Returned tt, joined_room p r,
     Room.fanout (ToClient.room_state (Room.serializeRoom (joined_room p r)) (Some (Player.id p)))
                 (joined_room p r)).
Proof.
  intros H. unfold Room.addPlayer, bind, get. cbv beta iota.
  apply Nat.leb_gt in H. rewrite H. unfold joined_room, team_for. simpl.
  reflexivity.
Qed.

Lemma count_team_teams (k : TeamKey) (r : Room.state) :
  Room.count_team k r = List.length (filter (fun e => TeamKey_eqb (snd e) k) (teams r)).
Proof.
  unfold Room.count_team, teams, JSMap.values.
  induction (Room.players r) as [|[k0 p] l IH]; simpl; [reflexivity|].
  destruct (TeamKey_eqb (Player.team p) k); simpl; rewrite IH; reflexivity.
Qed.

Lemma size_teams (r : Room.state) : JSMap.size (Room.players r) = List.length (teams r).
Proof. unfold teams, JSMap.size. rewrite length_map. reflexivity. Qed.

Lemma size_counts (r : Room.state) :
  JSMap.size (Room.players r) = Room.count_team TeamA r + Room.count_team TeamB r.
Proof.
  rewrite size_teams, !count_team_teams.
  induction (teams r) as [|[k0 [|]] l IH]; simpl; lia.
Qed.

Lemma teams_joined (p : Player.t) (r : Room.state) :
  JSMap.has (Player.id p) (Room.players r) = false ->
  teams (joined_room p r) = (teams r ++ [(Player.id p, team_for r)])%list.
Proof.
  intros H. unfold teams, joined_room. simpl. rewrite (set_fresh _ _ _ H).
  rewrite map_app. reflexivity.
Qed.

Lemma count_joined (k : TeamKey) (p : Player.t) (r : Room.state) :
  JSMap.has (Player.id p) (Room.players r) = false ->
  Room.count_team k (joined_room p r)
  = Room.count_team k r + (if TeamKey_eqb (team_for r) k then 1 else 0).
Proof.
  intros H. rewrite !count_team_teams, (teams_joined p r H), filter_app, length_app. simpl.
  destruct (TeamKey_eqb (team_for r) k); reflexivity.
Qed.

Lemma count_removed (k : TeamKey) (pid : string) (r : Room.state) :
  Room.count_team k (Room.with_players (JSMap.delete pid (Room.players r)) r)
  <= Room.count_team k r.
Proof.
  unfold Room.count_team, JSMap.values, JSMap.delete. simpl.
  induction (Room.players r) as [|[k0 p] l IH]; simpl; [lia|].
  destruct (negb (String.eqb k0 pid)); simpl; destruct (TeamKey_eqb (Player.team p) k); simpl; lia.
Qed.

Lemma removePlayer_players (pid : string) (r : Room.state) :
  state_after (Room.removePlayer pid r)
  = Room.with_players (JSMap.delete pid (Room.players r)) r.
Proof.
  unfold Room.removePlayer, bind, modify, get, state_after. simpl.
  destruct (JSMap.size (JSMap.delete pid (Room.players r)) =? 0)%nat; reflexivity.
Qed.

Lemma same_teams_within_two (r r' : Room.state) :
  same_teams r r' -> teams_within_two r -> teams_within_two r'.
Proof.
  unfold same_teams, teams_within_two. intros H. rewrite !count_team_teams, H. tauto.
Qed.

Lemma joined_within_two (p : Player.t) (r : Room.state) :
  JSMap.has (Player.id p) (Room.players r) = false ->
  JSMap.size (Room.players r) < 4 ->
  teams_within_two r -> teams_within_two (joined_room p r).
Proof.
  unfold teams_within_two. intros Hfresh Hsize [Ha Hb].
  rewrite !(count_joined _ p r Hfresh). rewrite size_counts in Hsize.
  unfold team_for. destruct (Nat.leb_spec (Room.count_team TeamA r) (Room.count_team TeamB r));
    simpl; lia.
Qed.

Lemma step_within_two (r r' : Room.state) :
  room_step r r' -> teams_within_two r -> teams_within_two r'.
Proof.
  intros Hstep Hinv. destruct Hstep as [p r Hfresh|pid r|pick now pid b r|pid text r
                                       |vm now pid code h r|now r|r].
  - destruct (Nat.lt_ge_cases (JSMap.size (Room.players r)) 4) as [Hlt|Hge].
    + rewrite (addPlayer_joins p r Hlt). apply joined_within_two; assumption.
    + rewrite (addPlayer_full p r Hge). exact Hinv.
  - rewrite removePlayer_players. destruct Hinv as [Ha Hb].
    pose proof (count_removed TeamA pid r). pose proof (count_removed TeamB pid r).
    split; lia.
  - exact (same_teams_within_two _ _ (setReady_teams pick now pid b r) Hinv).
  - exact (same_teams_within_two _ _ (handleChat_teams pid text r) Hinv).
  - exact (same_teams_within_two _ _ (handleSubmit_teams vm now pid code h r) Hinv).
  - exact (same_teams_within_two _ _ (timer_tick_teams now r) Hinv).
  - exact (same_teams_within_two _ _ (rematch_teams r) Hinv).
Qed.

Lemma reachable_within_two (r : Room.state) : reachable r -> teams_within_two r.
Proof.
  induction 1 as [rid d t|r r' _ IH Hstep].
  - split; unfold Room.count_team; simpl; lia.
  - exact (step_within_two r r' Hstep IH).
Qed.

(** The player map never holds more than four. *)
Lemma reachable_size (r : Room.state) : reachable r -> JSMap.size (Room.players r) <= 4.
Proof.
  intros Hr. destruct (reachable_within_two r Hr). rewrite size_counts. lia.
Qed.

(** C4.  In every state [r] a room reaches: if four players are present
    they are two and two; and a player who joins (with a fresh identifier,
    the room not being full) is put on the team that has fewer members, on
    A when they are level, after which the two sizes differ by at most one
    and, if that makes four players, are two and two. *)
Theorem addPlayer_balances_teams (r : Room.state) :
  reachable r ->
  (JSMap.size (Room.players r) = 4 -> Room.count_team TeamA r = 2 /\ Room.count_team TeamB r = 2)
  /\ forall p : Player.t,
       JSMap.has (Player.id p) (Room.players r) = false ->
       JSMap.size (Room.players r) < 4 ->
       let r' := state_after (Room.addPlayer p r) in
       JSMap.get (Player.id p) (Room.players r')
       = Some (Player.with_team
                 (if (Room.count_team TeamA r <=? Room.count_team TeamB r)%nat
                  then TeamA else TeamB) p)
       /\ Room.count_team TeamA r' <= Room.count_team TeamB r' + 1
       /\ Room.count_team TeamB r' <= Room.count_team TeamA r' + 1
       /\ (JSMap.size (Room.players r') = 4 ->
           Room.count_team TeamA r' = 2 /\ Room.count_team TeamB r' = 2).
Proof.
  intros Hr. pose proof (reachable_within_two r Hr) as [Ha Hb].
  split.
  { rewrite size_counts. lia. }
  intros p Hfresh Hsize r'. subst r'.
  rewrite (addPlayer_joins p r Hsize). unfold state_after. simpl fst. simpl snd.
  split.
  { unfold joined_room. simpl. rewrite get_set, String.eqb_refl. reflexivity. }
  rewrite (size_counts (joined_room p r)), !(count_joined _ p r Hfresh).
  unfold team_for.
  destruct (Nat.leb_spec (Room.count_team TeamA r) (Room.count_team TeamB r)); simpl; lia.
Qed.

Lemma after_departure_reachable : reachable after_departure.
Proof.
  unfold after_departure.
  repeat first [ apply reach_new
               | eapply reach_step; [ | first [ apply step_removePlayer
                                              | apply step_addPlayer; reflexivity ] ] ].
Qed.

Lemma addPlayer_balances_teams_witness :
  let r' := state_after (Room.addPlayer (guest 5 "u5") after_departure) in
  JSMap.size (Room.players r') = 4
  /\ Room.count_team TeamA r' = 2 /\ Room.count_team TeamB r' = 2.
Proof.
  split; [reflexivity|].
  refine (proj2 (proj2 (proj2 (proj2 (addPlayer_balances_teams after_departure
            after_departure_reachable) (guest 5 "u5") eq_refl _))) eq_refl).
  apply Nat.ltb_lt. reflexivity.
Defined.

(* ------------------------------------------------------------------ *)
(** ** Rematch *)

Lemma fanout_room_state (payload : RoomStatePayload) (selfId : option string) (r : Room.state) :
  forallb is_room_state_send (Room.fanout (ToClient.room_state payload selfId) r) = true.
Proof.
  unfold Room.fanout. induction (JSMap.values (Room.players r)) as [|p l IH]; simpl; [reflexivity|].
  unfold safeSend. destruct (isOpen (Player.ws p)); simpl; exact IH.
Qed.

Lemma fanout_no_game_over (payload : RoomStatePayload) (selfId : option string) (r : Room.state) :
  existsb is_game_over_send (Room.fanout (ToClient.room_state payload selfId) r) = false.
Proof.
  unfold Room.fanout. induction (JSMap.values (Room.players r)) as [|p l IH]; simpl; [reflexivity|].
  unfold safeSend. destruct (isOpen (Player.ws p)); simpl; exact IH.
Qed.

(** C8.  From any state, [rematch] leaves every player with readiness off
    and no attempts or errors counted, on the team and under the identity,
    name and socket it had; the room is not started, has no winner, no
    problem, no deadline and no timer; and all that is sent is the room
    state to the players, so no round-end message, whether a round was
    running or not. *)
Theorem rematch_resets (r : Room.state) :
  let r' := Room.mk (Room.id r) (Room.difficulty r) (Room.topic r)
                    (map (fun e => (fst e, reset_player (snd e))) (Room.players r))
                    false None None None false in
  Room.rematch r
  = (Returned tt, r', Room.fanout (ToClient.room_state (Room.serializeRoom r') None) r')
  /\ forallb is_room_state_send (trace_of (Room.rematch r)) = true
  /\ existsb is_game_over_send (trace_of (Room.rematch r)) = false
  /\ teams r' = teams r
  /\ map (fun p => (Player.id p, Player.name p, Player.team p, Player.ws p))
         (JSMap.values (Room.players r'))
     = map (fun p => (Player.id p, Player.name p, Player.team p, Player.ws p))
           (JSMap.values (Room.players r))
  /\ forallb (fun p => negb (Player.ready p) && (Player.attempts p =? 0)%nat
                       && (Player.errors p =? 0)%nat)
             (JSMap.values (Room.players r')) = true.
Proof.
  intros r'.
  assert (E : Room.rematch r
              = (Returned tt, r', Room.fanout (ToClient.room_state (Room.serializeRoom r') None) r')).
  { reflexivity. }
  split; [exact E|]. split.
  { rewrite E. apply fanout_room_state. }
  split.
  { rewrite E. apply fanout_no_game_over. }
  subst r'. unfold teams, JSMap.values. simpl. rewrite !map_map. simpl.
  repeat split. clear E.
  induction (Room.players r) as [|e l IH]; simpl; [reflexivity | exact IH].
Qed.

(* ------------------------------------------------------------------ *)
(** ** Submissions *)



(* ------------------------------------------------------------------ *)
(** ** Starting a round *)

Lemma start_empty_pool (pick : nat) (now : Z) (r : Room.state) :
  pool_of r = [] ->
  Room.start pick now r
  = (Threw "No problems in this category.", Room.with_winner None (Room.with_started true r), []).
Proof.
  intros H. unfold Room.start, bind, modify, get, await, Repo.getRandomProblem.
  cbn [Room.difficulty Room.topic Room.with_winner Room.with_started].
  fold (pool_of r). rewrite H. reflexivity.
Qed.

(** With a problem to draw, [start] sets the deadline twenty minutes ahead
    and announces the round to every player. *)
Lemma start_with_problem (pick : nat) (now : Z) (r : Room.state) (first : Problem) (rest : list Problem) :
  pool_of r = first :: rest ->
  let pb := nth (pick mod List.length (pool_of r)) (pool_of r) first in
  let r' := state_after (Room.start pick now r) in
  Room.started r' = true
  /\ Room.winner r' = None
  /\ Room.problem r' = Some pb
  /\ Room.endAt r' = Some (now + 1200 * 1000)%Z
  /\ Room.players r' = Room.players r
  /\ exists rest_of_trace,
       trace_of (Room.start pick now r)
       = (Room.fanout (ToClient.game_start pb (now + 1200 * 1000)%Z (boilerplate pb)) r
          ++ rest_of_trace)%list.
Proof.
  intros H pb r'. subst pb r'.
  unfold Room.start, bind, modify, get, await, Repo.getRandomProblem, state_after, trace_of.
  cbn [Room.difficulty Room.topic Room.with_winner Room.with_started].
  fold (pool_of r). rewrite H.
  unfold Room.startTimer, Room.stopTimer, Room.broadcast, Room.broadcastState,
    bind, get, modify, emit, ret. simpl.
  destruct (Z.eqb (now + 1200000) 0); simpl; repeat split; eexists; reflexivity.
Qed.

(** [tryStart] sets the [started] flag exactly under the start condition. *)
Lemma tryStart_starts_iff (pick : nat) (now : Z) (r : Room.state) :
  Room.started r = false ->
  (Room.started (state_after (Room.tryStart pick now r)) = true
   <-> JSMap.size (Room.players r) = 4 /\ Room.allReady r = true).
Proof.
  intros Hs. unfold Room.tryStart, bind, get, state_after. cbv beta iota. rewrite Hs.
  destruct (Nat.eqb_spec (JSMap.size (Room.players r)) 4) as [E|E]; simpl.
  - destruct (Room.allReady r) eqn:Ha; simpl.
    + split; [intros _; split; [exact E | reflexivity] | intros _].
      destruct (pool_of r) as [|first rest] eqn:Hp.
      * unfold detached. rewrite (start_empty_pool pick now r Hp). reflexivity.
      * pose proof (start_with_problem pick now r first rest Hp) as (H & _).
        unfold detached, state_after in *.
        destruct (Room.start pick now r) as [[[u|e] s1] o1]; exact H.
    + rewrite Hs. split; [discriminate | intros [_ H]; discriminate H].
  - rewrite Hs. split; [discriminate | intros [H _]; contradiction].
Qed.

Lemma tryStart_empty_pool (pick : nat) (now : Z) (r : Room.state) :
  Room.started r = false ->
  JSMap.size (Room.players r) = 4 ->
  Room.allReady r = true ->
  pool_of r = [] ->
  Room.tryStart pick now r
  = (Returned tt, Room.with_winner None (Room.with_started true r),
     [UnhandledRejection "No problems in this category."]).
Proof.
  intros Hs Hn Ha Hp. unfold Room.tryStart, bind, get. cbv beta iota.
  rewrite Hs, Ha. apply Nat.eqb_eq in Hn. rewrite Hn. simpl.
  unfold detached. rewrite (start_empty_pool pick now r Hp). reflexivity.
Qed.

(** *** The invariant of a running round *)

Lemma pool_of_same (r r' : Room.state) :
  Room.difficulty r' = Room.difficulty r -> Room.topic r' = Room.topic r -> pool_of r' = pool_of r.
Proof. unfold pool_of. intros -> ->. reflexivity. Qed.

Lemma sound_step_refl r : sound_step r r.
Proof. split; [reflexivity | split; [reflexivity | intros _ H; exact H]]. Qed.

Lemma sound_step_trans r1 r2 r3 : sound_step r1 r2 -> sound_step r2 r3 -> sound_step r1 r3.
Proof.
  intros (Hd & Ht & H) (Hd' & Ht' & H'). split; [congruence | split; [congruence|]].
  intros Hp Hr. apply H'; [rewrite (pool_of_same _ _ Hd Ht); exact Hp | exact (H Hp Hr)].
Qed.

Lemma start_sound pick now : keeps sound_step (Room.start pick now).
Proof.
  intros r. destruct (pool_of r) as [|first rest] eqn:Hp.
  - rewrite (start_empty_pool pick now r Hp). unfold state_after. simpl.
    split; [reflexivity | split; [reflexivity | intros H; contradiction]].
  - pose proof (start_with_problem pick now r first rest Hp) as H. simpl in H.
    assert (Hk : Room.difficulty (state_after (Room.start pick now r)) = Room.difficulty r
                 /\ Room.topic (state_after (Room.start pick now r)) = Room.topic r).
    { unfold Room.start, bind, modify, get, await, Repo.getRandomProblem, state_after.
      cbn [Room.difficulty Room.topic Room.with_winner Room.with_started].
      fold (pool_of r). rewrite Hp.
      unfold Room.startTimer, Room.stopTimer, Room.broadcast, Room.broadcastState,
        bind, get, modify, emit, ret. simpl.
      destruct (Z.eqb (now + 1200000) 0); simpl; split; reflexivity. }
    destruct Hk as [Hd Ht]. destruct H as (Hs & _ & Hpb & He & _).
    split; [exact Hd | split; [exact Ht|]]. intros _ _ _. split.
    + rewrite Hpb. discriminate.
    + rewrite He. discriminate.
Qed.

Lemma rematch_state (r : Room.state) :
  state_after (Room.rematch r)
  = Room.mk (Room.id r) (Room.difficulty r) (Room.topic r)
            (map (fun e => (fst e, reset_player (snd e))) (Room.players r))
            false None None None false.
Proof. reflexivity. Qed.

Lemma rematch_sound : keeps sound_step Room.rematch.
Proof.
  intros r. rewrite rematch_state.
  split; [reflexivity | split; [reflexivity | intros _ _ H; discriminate H]].
Qed.

(** As [frame], for [sound_step]; [start] and [rematch] are taken whole. *)
Ltac frame_round :=
  repeat first
    [ apply start_sound
    | apply (keeps_ret _ sound_step_refl)
    | apply (keeps_get _ sound_step_refl)
    | apply (keeps_emit _ sound_step_refl)
    | apply (keeps_throw _ sound_step_refl)
    | apply (keeps_await _ sound_step_refl)
    | apply (keeps_detached _)
    | apply (keeps_bind _ sound_step_trans); [ | intro ]
    | match goal with
      | |- keeps _ (if ?b then _ else _) => destruct b
      | |- keeps _ (match ?x with _ => _ end) => destruct x
      | |- keeps _ (let '(_, _) := ?x in _) => destruct x
      end
    | apply (keeps_modify _); intro s; unfold sound_step, has_round; simpl;
      (split; [reflexivity | split; [reflexivity|]]); try tauto; try (intros; discriminate) ].

Lemma setReady_sound pick now pid b : keeps sound_step (Room.setReady pick now pid b).
Proof. unfold Room.setReady, Room.tryStart. frame_round. Qed.

Lemma removePlayer_sound pid : keeps sound_step (Room.removePlayer pid).
Proof. unfold Room.removePlayer. frame_round. Qed.
Lemma addPlayer_sound p : keeps sound_step (Room.addPlayer p).
Proof. unfold Room.addPlayer. frame_round. Qed.
Lemma handleChat_sound pid text : keeps sound_step (Room.handleChat pid text).
Proof. unfold Room.handleChat. frame_round. Qed.
Lemma timer_tick_sound now : keeps sound_step (Room.timer_tick now).
Proof. unfold Room.timer_tick. frame_round. Qed.
Lemma handleSubmit_sound vm now pid code h : keeps sound_step (Room.handleSubmit vm now pid code h).
Proof. unfold Room.handleSubmit. frame_round. Qed.

Lemma room_step_sound r r' : room_step r r' -> sound_step r r'.
Proof.
  destruct 1.
  - apply addPlayer_sound.
  - apply removePlayer_sound.
  - apply setReady_sound.
  - apply handleChat_sound.
  - apply handleSubmit_sound.
  - apply timer_tick_sound.
  - apply rematch_sound.
Qed.

(** In a room whose category has a problem, a set [started] flag comes
    with a problem and a deadline, in every state the room reaches. *)
Lemma reachable_has_round (r : Room.state) :
  reachable r -> pool_of r <> [] -> has_round r.
Proof.
  induction 1 as [rid d t|r r' _ IH Hstep]; intros Hp.
  - intros H. discriminate H.
  - destruct (room_step_sound r r' Hstep) as (Hd & Ht & H).
    rewrite (pool_of_same _ _ Hd Ht) in Hp. exact (H Hp (IH Hp)).
Qed.

(** *** A category with no problem *)

(** No seeded problem is Hard/Arrays. *)
Example hard_arrays_pool_empty : pool_of (Room.new "ABCD" Hard Arrays) = [].
Proof. reflexivity. Qed.

(** C1, on the code.  Four players join a Hard/Arrays room and all declare
    themselves ready.  Handling the fourth [ready] sends the room state to
    the four players and nothing else: no message of kind error goes to
    anyone, and the rejection of [start] by the repository is left
    unhandled. *)
Theorem empty_category_goes_unreported :
  snd (step Scenario.vm Scenario.hard_arrays (Scenario.ready 4 5000))
  = (Room.fanout (ToClient.room_state (Room.serializeRoom all_ready) None) all_ready
     ++ [UnhandledRejection "No problems in this category."])%list
  /\ existsb is_error_send (snd (step Scenario.vm Scenario.hard_arrays (Scenario.ready 4 5000))) = false
  /\ existsb is_unhandled (snd (step Scenario.vm Scenario.hard_arrays (Scenario.ready 4 5000))) = true.
Proof. repeat apply conj; vm_compute; reflexivity. Qed.

Lemma stuck_reachable : reachable stuck.
Proof.
  assert (E : stuck
    = state_after (Room.setReady 0 5000 "u4" true
       (state_after (Room.setReady 0 4000 "u3" true
        (state_after (Room.setReady 0 3000 "u2" true
         (state_after (Room.setReady 0 2000 "u1" true
          (state_after (Room.addPlayer (guest 4 "u4")
           (state_after (Room.addPlayer (guest 3 "u3")
            (state_after (Room.addPlayer (guest 2 "u2")
             (state_after (Room.addPlayer (guest 1 "u1")
              (Room.new "ABCD" Hard Arrays))))))))))))))))).
  { vm_compute. reflexivity. }
  rewrite E.
  repeat first [ apply reach_new
               | eapply reach_step; [ | first [ apply step_setReady
                                              | apply step_addPlayer; reflexivity ] ] ].
Qed.

(** C2, on the code.  The room of the scenario above is a state reached by
    four [addPlayer] and four [setReady]; it holds four players and its
    [started] flag is set, with no problem and no deadline. *)
Theorem started_without_problem :
  reachable stuck
  /\ JSMap.size (Room.players stuck) = 4
  /\ Room.started stuck = true
  /\ Room.problem stuck = None
  /\ Room.endAt stuck = None.
Proof. split; [exact stuck_reachable | repeat apply conj; vm_compute; reflexivity]. Qed.

(** C5, on the code.  Before the fourth [ready] the Hard/Arrays room is not
    started; handling it, with the clock at 5000, meets the start condition
    and sets [started], yet no deadline is set - it would be 1205000 - the
    timer is not running, and no round-start message is among what is sent.
    In the Easy/Arrays room the same message sets the deadline. *)
Theorem started_without_deadline :
  Room.started (Scenario.room_abcd Scenario.hard_arrays) = false
  /\ JSMap.size (Room.players all_ready) = 4
  /\ Room.allReady all_ready = true
  /\ Room.started stuck = true
  /\ Room.endAt stuck = None
  /\ Room.timer stuck = false
  /\ snd (step Scenario.vm Scenario.hard_arrays (Scenario.ready 4 5000))
     = (Room.fanout (ToClient.room_state (Room.serializeRoom all_ready) None) all_ready
        ++ [UnhandledRejection "No problems in this category."])%list
  /\ Room.endAt Scenario.playing = Some (5000 + 1200 * 1000)%Z.
Proof. repeat apply conj; vm_compute; reflexivity. Qed.

(* ------------------------------------------------------------------ *)
(** ** Joining twice *)

(** C9, as the code has it.  A [join_room] message on a connection that is
    in a room is dropped: nothing is sent to anybody, and neither the
    connection nor the registry, with every room in it, changes. *)
Theorem second_join_is_ignored
    (vm : Sandbox) (env : Env) (roomId name : string) (d : option Difficulty) (tp : option Topic)
    (c : Session) (sv : Server vm) :
  currentRoom c <> None ->
  on_message vm env (Parsed (ToServer.join_room roomId name d tp)) c sv = (c, sv, []).
Proof.
  intros H. simpl. destruct (currentRoom c); [reflexivity | contradiction].
Qed.

Lemma second_join_is_ignored_witness :
  step Scenario.vm Scenario.easy_arrays rejoin = (Scenario.easy_arrays, []).
Proof.
  unfold step, rejoin, Scenario.join.
  change (session_of Scenario.vm 1 Scenario.easy_arrays)
    with (Some (mkSession (mkWebSocket 1 true) (Some "ABCD") (Some "u1"))).
  cbv beta iota.
  rewrite (second_join_is_ignored Scenario.vm (mkEnv 1000 0 "u9") "wxyz" "ada" (Some Hard) (Some DP)
             (mkSession (mkWebSocket 1 true) (Some "ABCD") (Some "u1"))
             (server Scenario.easy_arrays)).
  - vm_compute. reflexivity.
  - discriminate.
Defined.

(** The session is in room ABCD, and its second join is answered by
    nothing: no error is reported to it. *)
Lemma second_join_is_not_reported :
  option_map currentRoom (session_of Scenario.vm 1 Scenario.easy_arrays) = Some (Some "ABCD")
  /\ snd (step Scenario.vm Scenario.easy_arrays rejoin) = []
  /\ existsb is_error_send (snd (step Scenario.vm Scenario.easy_arrays rejoin)) = false.
Proof. repeat apply conj; vm_compute; reflexivity. Qed.

(* ================================================================== *)
(** * Further properties of the server *)

(** ** The problem source and the judge *)

Lemma Difficulty_eqb_eq a b : Difficulty_eqb a b = true <-> a = b.
Proof. destruct a, b; simpl; split; intros H; try reflexivity; discriminate H. Qed.

Lemma Topic_eqb_eq a b : Topic_eqb a b = true <-> a = b.
Proof. destruct a, b; simpl; split; intros H; try reflexivity; discriminate H. Qed.

(** X1.  [getRandomProblem] resolves only to a problem of the list that has
    the difficulty and the topic asked for, whatever the random draw; it
    rejects, with the text of the source, only when the list has no problem
    of that difficulty and topic. *)
Theorem getRandomProblem_in_category
    (problems : list Problem) (pick : nat) (d : Difficulty) (t : Topic) :
  match Repo.getRandomProblem problems pick d t with
  | Resolved p => In p problems /\ problem_difficulty p = d /\ problem_topic p = t
  | Rejected m =>
      m = "No problems in this category."
      /\ forall p, In p problems -> ~ (problem_difficulty p = d /\ problem_topic p = t)
  end.
Proof.
  unfold Repo.getRandomProblem.
  set (keep := fun p => Difficulty_eqb (problem_difficulty p) d && Topic_eqb (problem_topic p) t).
  destruct (filter keep problems) as [|first rest] eqn:Hpool.
  - split; [reflexivity|]. intros p Hin [Hd Ht].
    assert (Hp : In p (filter keep problems)).
    { apply filter_In. split; [exact Hin|]. unfold keep.
      apply andb_true_iff. split; [apply Difficulty_eqb_eq | apply Topic_eqb_eq]; assumption. }
    rewrite Hpool in Hp. exact Hp.
  - assert (Hin : In (nth (pick mod List.length (first :: rest)) (first :: rest) first)
                     (filter keep problems)).
    { rewrite Hpool. apply nth_In. apply Nat.mod_upper_bound. discriminate. }
    apply filter_In in Hin as [Hin Hk]. unfold keep in Hk.
    apply andb_true_iff in Hk as [Hd Ht].
    split; [exact Hin|]. split; [apply Difficulty_eqb_eq | apply Topic_eqb_eq]; assumption.
Qed.



Lemma stringify_array_texts (items : list JSValue) :
  stringify (VArr items)
  = match element_texts items with
    | inl m => SerializeError m
    | inr ps => Text ("[" ++ String.concat "," ps ++ "]")
    end.
Proof.
  cbn [stringify].
  match goal with
  | |- match ?F items with _ => _ end = _ =>
      assert (E : forall l, F l = element_texts l)
  end.
  { induction l as [|x l IH]; [reflexivity|].
    cbn [element_texts]. unfold element_text. rewrite <- IH.
    destruct (stringify x); reflexivity. }
  rewrite E. reflexivity.
Qed.

Lemma written_null_text (v : JSValue) : written_null v = true -> element_text v = inr "null".
Proof. destruct v as [| | |[| | |]| | | | |]; simpl; intros H; try discriminate H; reflexivity. Qed.

Lemma element_texts_app (l1 l2 : list JSValue) :
  element_texts (l1 ++ l2)%list
  = match element_texts l1 with
    | inl m => inl m
    | inr ps => match element_texts l2 with inl m => inl m | inr qs => inr (ps ++ qs)%list end
    end.
Proof.
  induction l1 as [|x l1 IH]; simpl.
  - destruct (element_texts l2); reflexivity.
  - destruct (element_text x); [reflexivity|]. rewrite IH.
    destruct (element_texts l1); [reflexivity|]. destruct (element_texts l2); reflexivity.
Qed.

(** X3.  Inside an array [JSON.stringify] writes [undefined], a function,
    [NaN] and the infinities as [null]: two arrays that differ in one
    element only, which in both is such a value or [null], have the same
    JSON text, and [deepEqual] never finds them different. *)
Theorem array_elements_written_null (before after : list JSValue) (v w : JSValue) :
  written_null v = true -> written_null w = true ->
  stringify (VArr (before ++ v :: after)%list) = stringify (VArr (before ++ w :: after)%list)
  /\ deepEqual (VArr (before ++ v :: after)%list) (VArr (before ++ w :: after)%list) <> Different.
Proof.
  intros Hv Hw.
  assert (E : stringify (VArr (before ++ v :: after)%list) = stringify (VArr (before ++ w :: after)%list)).
  { rewrite !stringify_array_texts, !element_texts_app. cbn [element_texts].
    rewrite (written_null_text v Hv), (written_null_text w Hw). reflexivity. }
  split; [exact E|].
  intros H. apply deepEqual_Different in H as [H _]. exact (H E).
Qed.

Lemma array_elements_written_null_witness :
  deepEqual (VArr [int 1; VNum NNaN; int 3]) (VArr [int 1; VNull; int 3]) <> Different.
Proof.
  exact (proj2 (array_elements_written_null [int 1] [int 3] (VNum NNaN) VNull eq_refl eq_refl)).
Defined.

(** ** Names and room ids *)

Lemma substring_length_le (n : nat) (s : string) : String.length (String.substring 0 n s) <= n.
Proof.
  revert s. induction n as [|n IH]; intros [|c s]; simpl; try lia.
  specialize (IH s). lia.
Qed.

Lemma keep_chars_length (f : ascii -> bool) (s : string) :
  String.length (keep_chars f s) <= String.length s.
Proof. induction s as [|c s IH]; simpl; [lia|]. destruct (f c); simpl; lia. Qed.

Lemma keep_chars_forall (f : ascii -> bool) (s : string) : string_forall f (keep_chars f s) = true.
Proof.
  induction s as [|c s IH]; simpl; [reflexivity|].
  destruct (f c) eqn:E; simpl; [rewrite E|]; exact IH.
Qed.

(** X4.  A sanitized name has at most 24 characters, each of them a letter,
    a digit, an underscore, a hyphen or a space. *)
Theorem sanitizeName_is_short_and_plain (name : string) :
  String.length (sanitizeName name) <= 24
  /\ string_forall name_char (sanitizeName name) = true.
Proof.
  unfold sanitizeName. split.
  - eapply Nat.le_trans; [apply keep_chars_length | apply substring_length_le].
  - apply keep_chars_forall.
Qed.

Lemma substring_forall (f : ascii -> bool) (n : nat) (s : string) :
  string_forall f s = true -> string_forall f (String.substring 0 n s) = true.
Proof.
  revert s. induction n as [|n IH]; intros [|c s]; simpl; try reflexivity.
  intros H. apply andb_true_iff in H as [Hc Hs]. rewrite Hc. exact (IH s Hs).
Qed.

Lemma keep_chars_none (f : ascii -> bool) (s : string) :
  string_forall (fun c => negb (f c)) s = true -> keep_chars f s = EmptyString.
Proof.
  induction s as [|c s IH]; simpl; [reflexivity|].
  intros H. apply andb_true_iff in H as [Hc Hs]. apply negb_true_iff in Hc. rewrite Hc. exact (IH Hs).
Qed.

(** X5.  The fallback name of [sanitizeName] stands in for the empty name
    only: a name that is not empty and has no letter, digit, underscore,
    hyphen or space is sanitized to the empty name. *)
Theorem sanitizeName_can_be_empty (name : string) :
  name <> EmptyString ->
  string_forall (fun c => negb (name_char c)) name = true ->
  sanitizeName name = EmptyString.
Proof.
  intros Hne H. unfold sanitizeName.
  destruct (String.eqb_spec name EmptyString) as [E|_]; [contradiction|].
  apply keep_chars_none. apply substring_forall. exact H.
Qed.

Lemma sanitizeName_can_be_empty_witness : sanitizeName "<?>" = EmptyString.
Proof.
  apply sanitizeName_can_be_empty; [intros E; discriminate E | reflexivity].
Defined.

Lemma upper_char_idempotent (c : ascii) : upper_char (upper_char c) = upper_char c.
Proof. destruct c as [[] [] [] [] [] [] [] []]; reflexivity. Qed.

Lemma toUpperCase_idempotent (s : string) : toUpperCase (toUpperCase s) = toUpperCase s.
Proof. induction s as [|c s IH]; simpl; [reflexivity|]. rewrite upper_char_idempotent, IH. reflexivity. Qed.

(** X6.  Room ids are case-insensitive on joining: a join that names a
    room in any mix of cases is handled as the join that names it in upper
    case. *)
Theorem join_room_ignores_case
    (vm : Sandbox) (env : Env) (roomId name : string) (d : option Difficulty) (tp : option Topic)
    (c : Session) (sv : Server vm) :
  on_message vm env (Parsed (ToServer.join_room (toUpperCase roomId) name d tp)) c sv
  = on_message vm env (Parsed (ToServer.join_room roomId name d tp)) c sv.
Proof.
  cbn [on_message]. rewrite toUpperCase_idempotent. reflexivity.
Qed.

(** ** The registry *)

Lemma get_delete {V} (m : JSMap.t V) (k k' : string) :
  JSMap.get k' (JSMap.delete k m) = if String.eqb k k' then None else JSMap.get k' m.
Proof.
  unfold JSMap.get, JSMap.delete. induction m as [|[k0 v0] m IH]; simpl.
  - destruct (String.eqb k k'); reflexivity.
  - destruct (String.eqb_spec k0 k) as [->|Hne]; simpl.
    + rewrite IH. destruct (String.eqb_spec k k'); [reflexivity|].
      reflexivity.
    + destruct (String.eqb_spec k0 k') as [->|Hne'].
      * destruct (String.eqb_spec k k'); [congruence | reflexivity].
      * exact IH.
Qed.

Lemma set_same {V} (m : JSMap.t V) (k : string) (v : V) :
  JSMap.get k m = Some v -> JSMap.set k v m = m.
Proof.
  unfold JSMap.get. induction m as [|[k0 v0] m IH]; simpl; [discriminate|].
  destruct (String.eqb_spec k0 k) as [->|Hne]; simpl.
  - intros H. injection H as ->. reflexivity.
  - intros H. f_equal. exact (IH H).
Qed.

(** X7.  [getOrCreate] returns the room registered under the id, the
    category given being ignored; or else a new room of that category with
    no player, which it registers.  Afterwards the id looks up to the room
    returned, and every other id to what it did before. *)
Theorem getOrCreate_registers
    (rid : string) (d : Difficulty) (tp : Topic) (rooms : RoomsMap.t) (k : string) :
  let room := fst (RoomsMap.getOrCreate rid d tp rooms) in
  let rooms' := snd (RoomsMap.getOrCreate rid d tp rooms) in
  RoomsMap.get k rooms' = (if String.eqb rid k then Some room else RoomsMap.get k rooms)
  /\ room = match RoomsMap.get rid rooms with
            | Some existing => existing
            | None => Room.new rid d tp
            end.
Proof.
  unfold RoomsMap.getOrCreate, RoomsMap.get. cbv zeta.
  destruct (JSMap.get rid rooms) as [existing|] eqn:E; simpl.
  - split; [|reflexivity].
    destruct (String.eqb_spec rid k) as [<-|Hne]; [exact E | reflexivity].
  - split; [|reflexivity]. apply get_set.
Qed.

(** X8.  [removeIfEmpty] unregisters the room of the id when it has no
    player and changes nothing otherwise: a room with players stays, an
    unknown id stays unknown, and no other id is touched. *)
Theorem removeIfEmpty_unregisters (rid : string) (rooms : RoomsMap.t) (k : string) :
  RoomsMap.get k (RoomsMap.removeIfEmpty rid rooms)
  = if String.eqb rid k
    then match RoomsMap.get rid rooms with
         | Some r => if (JSMap.size (Room.players r) =? 0)%nat then None else Some r
         | None => None
         end
    else RoomsMap.get k rooms.
Proof.
  unfold RoomsMap.removeIfEmpty, RoomsMap.get.
  destruct (JSMap.get rid rooms) as [r|] eqn:E.
  - destruct (JSMap.size (Room.players r) =? 0)%nat.
    + rewrite get_delete. destruct (String.eqb rid k); reflexivity.
    + destruct (String.eqb_spec rid k) as [<-|Hne]; [exact E | reflexivity].
  - destruct (String.eqb_spec rid k) as [<-|Hne]; [exact E | reflexivity].
Qed.

(** ** The connection handlers *)

Lemma delete_set {V} (m : JSMap.t V) (k : string) (v : V) :
  JSMap.delete k (JSMap.set k v m) = JSMap.delete k m.
Proof.
  unfold JSMap.delete. induction m as [|[k0 v0] m IH]; simpl.
  - rewrite String.eqb_refl. reflexivity.
  - destruct (String.eqb_spec k0 k) as [->|Hne]; simpl.
    + rewrite String.eqb_refl. reflexivity.
    + destruct (String.eqb_spec k0 k); [contradiction|]. simpl. f_equal. exact IH.
Qed.

Lemma server_eta (vm : Sandbox) (sv : Server vm) : mkServer vm (rooms sv) (host sv) = sv.
Proof. destruct sv; reflexivity. Qed.

(** X9.  A join to a registered room that holds four players is refused:
    the sender alone is sent the error [Room full], the registry and the
    room are as before, and the connection stays outside any room (it keeps
    the player id made for the attempt). *)
Theorem join_full_room_is_refused
    (vm : Sandbox) (env : Env) (roomId name : string) (d : option Difficulty) (tp : option Topic)
    (c : Session) (sv : Server vm) (room : Room.state) :
  currentRoom c = None ->
  RoomsMap.get (toUpperCase roomId) (rooms sv) = Some room ->
  4 <= JSMap.size (Room.players room) ->
  on_message vm env (Parsed (ToServer.join_room roomId name d tp)) c sv
  = (mkSession (socket c) None (Some (randomUUID env)), sv,
     safeSend (socket c) (ToClient.error "Room full")).
Proof.
  intros Hc Hr Hfull. cbn [on_message]. rewrite Hc.
  unfold RoomsMap.getOrCreate. unfold RoomsMap.get in Hr. rewrite Hr.
  rewrite (addPlayer_full _ room Hfull). cbn [String.eqb].
  rewrite (set_same _ _ _ Hr), server_eta. reflexivity.
Qed.

Lemma join_full_room_is_refused_witness :
  on_message Scenario.vm (mkEnv 7000 0 "u5")
    (Parsed (ToServer.join_room "abcd" "eve" (Some Hard) (Some DP)))
    (mkSession (Scenario.sock 5) None None) (server Scenario.easy_arrays)
  = (mkSession (Scenario.sock 5) None (Some "u5"), server Scenario.easy_arrays,
     [Send 5 (ToClient.error "Room full")]).
Proof.
  refine (join_full_room_is_refused Scenario.vm (mkEnv 7000 0 "u5") "abcd" "eve" (Some Hard) (Some DP)
            (mkSession (Scenario.sock 5) None None) (server Scenario.easy_arrays) _ eq_refl eq_refl _).
  apply Nat.leb_le. reflexivity.
Defined.



Lemma handleChat_run (pid text : string) (r : Room.state) :
  Room.handleChat pid text r
  = (Returned tt, r,
     match JSMap.get pid (Room.players r) with
     | Some p => Room.fanout (ToClient.chat (Player.name p) text (Player.team p)) r
     | None => []
     end).
Proof.
  unfold Room.handleChat, Room.broadcast, bind, get, emit, ret. cbv beta iota.
  destruct (JSMap.get pid (Room.players r)); reflexivity.
Qed.



(** X12.  When the connection of a player closes, the player is deleted
    from its room; the room is unregistered if that leaves it with no
    player, and nothing is sent; otherwise the players left are sent the
    room state. *)
Theorem close_removes_player_and_empty_room
    (vm : Sandbox) (c : Session) (sv : Server vm) (rid sid : string) (r : Room.state) :
  joined c = Some (rid, sid) ->
  RoomsMap.get rid (rooms sv) = Some r ->
  let rest := Room.with_players (JSMap.delete sid (Room.players r)) r in
  on_close vm c sv
  = if (JSMap.size (Room.players rest) =? 0)%nat
    then (mkServer vm (JSMap.delete rid (rooms sv)) (host sv), [])
    else (mkServer vm (JSMap.set rid rest (rooms sv)) (host sv),
          Room.fanout (ToClient.room_state (Room.serializeRoom rest) None) rest).
Proof.
  intros Hj Hr rest. unfold on_close. rewrite Hj. unfold in_room. rewrite Hr.
  assert (E : Room.removePlayer sid r
              = (Returned tt, rest,
                 if (JSMap.size (Room.players rest) =? 0)%nat then []
                 else Room.fanout (ToClient.room_state (Room.serializeRoom rest) None) rest)).
  { unfold Room.removePlayer, Room.broadcastState, Room.broadcast, bind, modify, get, emit, ret.
    cbv beta iota. fold rest.
    destruct (JSMap.size (Room.players rest) =? 0)%nat; simpl; rewrite ?app_nil_r; reflexivity. }
  rewrite E. cbn [rooms host]. unfold RoomsMap.removeIfEmpty.
  rewrite get_set, String.eqb_refl.
  destruct (JSMap.size (Room.players rest) =? 0)%nat.
  - rewrite delete_set. reflexivity.
  - reflexivity.
Qed.

Lemma close_removes_player_and_empty_room_witness :
  let sv := server Scenario.easy_arrays in
  let r := Scenario.room_abcd Scenario.easy_arrays in
  let rest := Room.with_players (JSMap.delete "u1" (Room.players r)) r in
  on_close Scenario.vm (mkSession (Scenario.sock 1) (Some "ABCD") (Some "u1")) sv
  = (mkServer Scenario.vm (JSMap.set "ABCD" rest (rooms sv)) (host sv),
     Room.fanout (ToClient.room_state (Room.serializeRoom rest) None) rest).
Proof.
  intros sv r rest.
  pose proof (close_removes_player_and_empty_room Scenario.vm
                (mkSession (Scenario.sock 1) (Some "ABCD") (Some "u1")) sv "ABCD" "u1" r eq_refl) as H.
  assert (Hr : RoomsMap.get "ABCD" (rooms sv) = Some r) by (vm_compute; reflexivity).
  specialize (H Hr). cbv zeta in H. fold rest in H.
  assert (E : (JSMap.size (Room.players rest) =? 0)%nat = false) by (vm_compute; reflexivity).
  rewrite E in H. exact H.
Defined.

(** ** The methods of a room in closed form *)

Lemma finish_run (now : Z) (w : option TeamKey) (r : Room.state) :
  Room.finish now w r
  = if Room.started r
    then (Returned tt, concluded w r,
          (Room.fanout (ToClient.game_over w (remaining now r)) (concluded w r)
           ++ Room.fanout (ToClient.room_state (Room.serializeRoom (concluded w r)) None)
                          (concluded w r))%list)
    else (Returned tt, r, []).
Proof.
  unfold Room.finish, Room.broadcast, Room.broadcastState, Room.stopTimer,
    bind, get, modify, emit, ret. cbv beta iota.
  destruct (Room.started r); simpl; rewrite ?app_nil_r; reflexivity.
Qed.

Lemma start_run (pick : nat) (now : Z) (r : Room.state) (first : Problem) (rest : list Problem) :
  pool_of r = first :: rest ->
  let pb := drawn pick r first in
  let r1 := announced pb now r in
  Room.start pick now r
  = (Returned tt,
     (if truthy (Room.endAt r1) then Room.with_timer true r1 else r1),
     (Room.fanout (ToClient.game_start pb (now + GAME_SECONDS * 1000)%Z (boilerplate pb)) r1
      ++ Room.fanout (ToClient.room_state (Room.serializeRoom r1) None) r1)%list).
Proof.
  intros H pb r1. subst pb r1. unfold drawn.
  unfold Room.start, bind, modify, get, await, Repo.getRandomProblem.
  cbn [Room.difficulty Room.topic Room.with_winner Room.with_started].
  fold (pool_of r). rewrite H.
  unfold Room.startTimer, Room.stopTimer, Room.broadcast, Room.broadcastState,
    bind, get, modify, emit, ret, announced. simpl.
  destruct (Z.eqb (now + 1200000) 0); simpl; rewrite ?app_nil_r; reflexivity.
Qed.

Lemma tryStart_run (pick : nat) (now : Z) (r : Room.state) :
  Room.tryStart pick now r
  = if Room.started r || negb (JSMap.size (Room.players r) =? 4)%nat || negb (Room.allReady r)
    then (Returned tt, r, [])
    else detached (Room.start pick now) r.
Proof.
  unfold Room.tryStart, bind, get, ret. cbv beta iota.
  destruct (Room.started r); [reflexivity|].
  destruct (JSMap.size (Room.players r) =? 4)%nat; [|reflexivity].
  destruct (Room.allReady r); simpl; [|reflexivity].
  destruct (detached (Room.start pick now) r) as [[o s] tr]. rewrite ?app_nil_r. reflexivity.
Qed.

Lemma setReady_run (pick : nat) (now : Z) (pid : string) (b : bool) (r : Room.state) :
  Room.setReady pick now pid b r
  = match JSMap.get pid (Room.players r) with
    | None => (Returned tt, r, [])
    | Some _ =>
        let r1 := with_ready_of pid b r in
        let '(o, r2, t) := Room.tryStart pick now r1 in
        (o, r2, (Room.fanout (ToClient.room_state (Room.serializeRoom r1) None) r1 ++ t)%list)
    end.
Proof.
  unfold Room.setReady, Room.broadcastState, Room.broadcast, bind, get, modify, emit, ret.
  cbv beta iota. destruct (JSMap.get pid (Room.players r)) as [p|]; [|reflexivity].
  cbv zeta. fold (with_ready_of pid b r).
  destruct (Room.tryStart pick now (with_ready_of pid b r)) as [[[u|e] s] tr];
    simpl; rewrite ?app_nil_r; reflexivity.
Qed.

Lemma removePlayer_run (pid : string) (r : Room.state) :
  let rest := Room.with_players (JSMap.delete pid (Room.players r)) r in
  Room.removePlayer pid r
  = (Returned tt, rest,
     if (JSMap.size (Room.players rest) =? 0)%nat then []
     else Room.fanout (ToClient.room_state (Room.serializeRoom rest) None) rest).
Proof.
  intros rest.
  unfold Room.removePlayer, Room.broadcastState, Room.broadcast, bind, modify, get, emit, ret.
  cbv beta iota. fold rest.
  destruct (JSMap.size (Room.players rest) =? 0)%nat; simpl; rewrite ?app_nil_r; reflexivity.
Qed.

Lemma timer_tick_run (now : Z) (r : Room.state) :
  Room.timer_tick now r
  = if Room.timer r && truthy (Room.endAt r)
    then match Room.endAt r with
         | Some e =>
             if (e <=? now)%Z
             then Room.finish now None (Room.with_timer false r)
             else (Returned tt, r, Room.fanout (ToClient.timer_sync e) r)
         | None => (Returned tt, r, [])
         end
    else (Returned tt, r, []).
Proof.
  unfold Room.timer_tick, Room.stopTimer, Room.broadcast, bind, get, modify, emit, ret.
  cbv beta iota. destruct (Room.timer r); [|reflexivity]. simpl.
  destruct (Room.endAt r) as [e|]; [|reflexivity]. simpl.
  destruct (Z.eqb e 0); simpl; [reflexivity|].
  destruct (e <=? now)%Z; [|reflexivity].
  destruct (Room.finish now None (Room.with_timer false r)) as [[[u|m] s] t]; reflexivity.
Qed.

Lemma handleSubmit_run (vm : Sandbox) (now : Z) (pid : string) (code : Code vm) (h : Host vm)
    (r : Room.state) :
  forget (Room.handleSubmit vm now pid code h r)
  = match JSMap.get pid (Room.players r), Room.problem r, Room.started r with
    | Some p, Some pb, true =>
        match fst (evaluateSolution vm code pb h) with
        | Resolved true =>
            let '(o, s, t) := Room.finish now (Some (Player.team p)) (tried pid r) in
            (o, s, (Room.fanout (ToClient.attempt_result true None) (tried pid r) ++ t)%list)
        | Resolved false =>
            (Returned tt, failed pid r,
             (safeSend (Player.ws p) (ToClient.attempt_result false (Some "Wrong answer"))
              ++ Room.fanout (ToClient.room_state (Room.serializeRoom (failed pid r)) None)
                             (failed pid r))%list)
        | Rejected m =>
            (Returned tt, failed pid r,
             (safeSend (Player.ws p)
                (ToClient.attempt_result false
                   (Some (if String.eqb m "" then "Runtime error" else m)))
              ++ Room.fanout (ToClient.room_state (Room.serializeRoom (failed pid r)) None)
                             (failed pid r))%list)
        end
    | _, _, _ => (Returned tt, r, [])
    end.
Proof.
  unfold Room.handleSubmit, bind, get. cbv beta iota.
  destruct (JSMap.get pid (Room.players r)) as [p|]; [|reflexivity].
  destruct (Room.problem r) as [pb|]; [|reflexivity].
  destruct (Room.started r); [|reflexivity].
  destruct (evaluateSolution vm code pb h) as [[[|]|m] h']; cbn [fst].
  - unfold modify, Room.broadcast, bind, get, emit, ret. cbv beta iota. fold (tried pid r).
    destruct (Room.finish now (Some (Player.team p)) (tried pid r)) as [[[[]|e] s] t];
      simpl; rewrite ?app_nil_r; reflexivity.
  - unfold Room.reject_attempt, Room.broadcast, Room.broadcastState,
      bind, get, modify, emit, ret. simpl. rewrite ?app_nil_r. reflexivity.
  - unfold Room.reject_attempt, Room.broadcast, Room.broadcastState,
      bind, get, modify, emit, ret. simpl. rewrite ?app_nil_r. reflexivity.
Qed.

(** ** What a room sends, throws and leaves unhandled *)

Lemma sent_within_app (S : list nat) (o1 o2 : list Out) :
  sent_within S (o1 ++ o2) = sent_within S o1 && sent_within S o2.
Proof. apply forallb_app. Qed.

Lemma sent_within_more (S S' : list nat) (o : list Out) :
  (forall n, In n S -> In n S') -> sent_within S o = true -> sent_within S' o = true.
Proof.
  intros Hi. unfold sent_within. rewrite !forallb_forall. intros H e He.
  specialize (H e He). destruct e as [n m|]; [|reflexivity].
  apply existsb_exists in H as [x [Hx E]]. apply Nat.eqb_eq in E. subst x.
  apply existsb_exists. exists n. split; [apply Hi; exact Hx | apply Nat.eqb_refl].
Qed.

Lemma sent_within_safeSend (S : list nat) (ws : WebSocket) (msg : ToClient.t) :
  In (conn ws) S -> sent_within S (safeSend ws msg) = true.
Proof.
  intros H. unfold safeSend. destruct (isOpen ws); [|reflexivity]. simpl.
  rewrite andb_true_r. apply existsb_exists. exists (conn ws). split; [exact H | apply Nat.eqb_refl].
Qed.

Lemma sent_within_fanout (msg : ToClient.t) (r : Room.state) :
  sent_within (sockets r) (Room.fanout msg r) = true.
Proof.
  unfold Room.fanout, sockets.
  assert (G : forall l S, (forall p, In p l -> In (conn (Player.ws p)) S) ->
                sent_within S (flat_map (fun p => safeSend (Player.ws p) msg) l) = true).
  { induction l as [|p l IH]; intros S H; [reflexivity|].
    simpl. rewrite sent_within_app. apply andb_true_iff. split.
    - apply sent_within_safeSend. apply H. left. reflexivity.
    - apply IH. intros q Hq. apply H. right. exact Hq. }
  apply G. intros p Hp. apply in_map_iff. exists p. split; [reflexivity | exact Hp].
Qed.

Lemma sockets_adjust (f : Player.t -> Player.t) (pid : string) (r : Room.state) :
  (forall p, Player.ws (f p) = Player.ws p) ->
  sockets (Room.with_players (JSMap.adjust f pid (Room.players r)) r) = sockets r.
Proof.
  intros Hf. unfold sockets, JSMap.values, JSMap.adjust. simpl. rewrite !map_map.
  apply map_ext. intros [k p]. simpl. destruct (String.eqb k pid); simpl; [rewrite Hf|]; reflexivity.
Qed.

Lemma get_In_values {V} (m : JSMap.t V) (k : string) (v : V) :
  JSMap.get k m = Some v -> In v (JSMap.values m).
Proof.
  unfold JSMap.get, JSMap.values. induction m as [|[k0 v0] m IH]; simpl; [discriminate|].
  destruct (String.eqb k0 k); simpl.
  - intros H. injection H as ->. left. reflexivity.
  - intros H. right. exact (IH H).
Qed.

Lemma sockets_delete (pid : string) (r : Room.state) (n : nat) :
  In n (sockets (Room.with_players (JSMap.delete pid (Room.players r)) r)) -> In n (sockets r).
Proof.
  unfold sockets, JSMap.values, JSMap.delete. simpl. rewrite !in_map_iff.
  intros [p [E H]]. exists p. split; [exact E|].
  apply in_map_iff in H as [e [E' H]]. apply filter_In in H as [H _].
  apply in_map_iff. exists e. split; assumption.
Qed.

Lemma sent_within_fanout_same (msg : ToClient.t) (s r : Room.state) :
  sockets s = sockets r -> sent_within (sockets r) (Room.fanout msg s) = true.
Proof. intros <-. apply sent_within_fanout. Qed.

Lemma finish_within (now : Z) (w : option TeamKey) (s r : Room.state) :
  sockets s = sockets r -> sent_within (sockets r) (trace_of (Room.finish now w s)) = true.
Proof.
  intros E. rewrite finish_run. destruct (Room.started s); [|reflexivity].
  unfold trace_of. cbn [snd]. rewrite sent_within_app.
  rewrite !sent_within_fanout_same by exact E. reflexivity.
Qed.

Lemma tryStart_within (pick : nat) (now : Z) (s r : Room.state) :
  sockets s = sockets r -> sent_within (sockets r) (trace_of (Room.tryStart pick now s)) = true.
Proof.
  intros E. rewrite tryStart_run.
  destruct (Room.started s || negb (JSMap.size (Room.players s) =? 4)%nat || negb (Room.allReady s));
    [reflexivity|].
  unfold detached. destruct (pool_of s) as [|first rest] eqn:Hp.
  - rewrite (start_empty_pool pick now s Hp). reflexivity.
  - rewrite (start_run pick now s first rest Hp). unfold trace_of. cbn [snd].
    rewrite sent_within_app. rewrite !sent_within_fanout_same by exact E. reflexivity.
Qed.

Lemma perform_within_room (op : RoomOp) (r : Room.state) :
  match op with
  | OpAddPlayer _ | OpRemovePlayer _ | OpRematch =>
      sent_within (sockets (state_after (perform op r))) (trace_of (perform op r)) = true
  | _ => sent_within (sockets r) (trace_of (perform op r)) = true
  end.
Proof.
  destruct op as [p|pid|pick now pid b|pid text|vm now pid code h|now|]; cbn [perform].
  - destruct (Nat.lt_ge_cases (JSMap.size (Room.players r)) 4) as [Hlt|Hge].
    + rewrite (addPlayer_joins p r Hlt). apply sent_within_fanout.
    + rewrite (addPlayer_full p r Hge). reflexivity.
  - rewrite removePlayer_run. unfold state_after, trace_of. cbn [fst snd].
    destruct (JSMap.size _ =? 0)%nat; [reflexivity | apply sent_within_fanout].
  - rewrite setReady_run. destruct (JSMap.get pid (Room.players r)) as [p|]; [|reflexivity].
    cbv zeta.
    assert (E : sockets (with_ready_of pid b r) = sockets r).
    { apply sockets_adjust. reflexivity. }
    pose proof (tryStart_within pick now (with_ready_of pid b r) r E) as H.
    destruct (Room.tryStart pick now (with_ready_of pid b r)) as [[o s] tr].
    unfold trace_of in *. cbn [snd] in *. rewrite sent_within_app, H.
    rewrite (sent_within_fanout_same _ _ _ E). reflexivity.
  - rewrite handleChat_run. unfold trace_of. cbn [snd].
    destruct (JSMap.get pid (Room.players r)); [apply sent_within_fanout | reflexivity].
  - rewrite handleSubmit_run.
    destruct (JSMap.get pid (Room.players r)) as [p|] eqn:Hp; [|reflexivity].
    destruct (Room.problem r) as [pb|]; [|reflexivity].
    destruct (Room.started r); [|reflexivity].
    assert (Et : sockets (tried pid r) = sockets r) by (apply sockets_adjust; reflexivity).
    assert (Ef : sockets (failed pid r) = sockets r).
    { unfold failed. rewrite sockets_adjust by reflexivity. exact Et. }
    assert (Hin : In (conn (Player.ws p)) (sockets r)).
    { unfold sockets. apply in_map_iff. exists p. split; [reflexivity|].
      exact (get_In_values _ _ _ Hp). }
    destruct (fst (evaluateSolution vm code pb h)) as [[|]|m].
    + pose proof (finish_within now (Some (Player.team p)) (tried pid r) r Et) as H.
      destruct (Room.finish now (Some (Player.team p)) (tried pid r)) as [[o s] tr].
      unfold trace_of in *. cbn [snd] in *. rewrite sent_within_app, H.
      rewrite (sent_within_fanout_same _ _ _ Et). reflexivity.
    + unfold trace_of. cbn [snd]. rewrite sent_within_app.
      rewrite (sent_within_safeSend _ _ _ Hin), (sent_within_fanout_same _ _ _ Ef). reflexivity.
    + unfold trace_of. cbn [snd]. rewrite sent_within_app.
      rewrite (sent_within_safeSend _ _ _ Hin), (sent_within_fanout_same _ _ _ Ef). reflexivity.
  - rewrite timer_tick_run. destruct (Room.timer r && truthy (Room.endAt r)); [|reflexivity].
    destruct (Room.endAt r) as [e|]; [|reflexivity].
    destruct (e <=? now)%Z; [|apply sent_within_fanout].
    apply finish_within. reflexivity.
  - apply sent_within_fanout.
Qed.

(** X13.  Rooms are isolated: whatever operation a room performs, every
    message goes to the socket of a player of that room, one it had before
    the operation or has after it. *)
Theorem room_writes_to_its_players_only (op : RoomOp) (r : Room.state) :
  sent_within (sockets r ++ sockets (state_after (perform op r)))%list
              (trace_of (perform op r)) = true.
Proof.
  pose proof (perform_within_room op r) as H.
  destruct op; (eapply sent_within_more; [|exact H]); intros n Hn; apply in_or_app; auto.
Qed.








Lemma size_with_ready_of (pid : string) (b : bool) (r : Room.state) :
  JSMap.size (Room.players (with_ready_of pid b r)) = JSMap.size (Room.players r).
Proof. unfold with_ready_of, JSMap.size, JSMap.adjust. simpl. apply length_map. Qed.


(** ** The timer *)

Lemma state_after_forget {S A} (x : Outcome A * S * list Out) : state_after (forget x) = state_after x.
Proof. destruct x as [[[a|e] s] o]; reflexivity. Qed.

Lemma room_step_perform (r r' : Room.state) :
  room_step r r' -> exists op, r' = state_after (perform op r).
Proof.
  destruct 1 as [p r _|pid r|pick now pid b r|pid text r|vm now pid code h r|now r|r].
  - exists (OpAddPlayer p). reflexivity.
  - exists (OpRemovePlayer pid). reflexivity.
  - exists (OpSetReady pick now pid b). reflexivity.
  - exists (OpHandleChat pid text). reflexivity.
  - exists (OpHandleSubmit vm now pid code h). cbn [perform]. rewrite state_after_forget. reflexivity.
  - exists (OpTimerTick now). reflexivity.
  - exists OpRematch. reflexivity.
Qed.

Lemma timer_sound_round (r r' : Room.state) :
  round_of r' = round_of r -> timer_sound r -> timer_sound r'.
Proof. unfold round_of, timer_sound. intros E. injection E as -> _ -> ->. tauto. Qed.

Lemma finish_timer_sound (now : Z) (w : option TeamKey) (s : Room.state) :
  timer_sound s -> timer_sound (state_after (Room.finish now w s)).
Proof.
  intros H. rewrite finish_run. destruct (Room.started s); [|exact H].
  intros E. discriminate E.
Qed.

Lemma tryStart_timer_sound (pick : nat) (now : Z) (s : Room.state) :
  timer_sound s -> timer_sound (state_after (Room.tryStart pick now s)).
Proof.
  intros H. rewrite tryStart_run.
  destruct (Room.started s) eqn:Hs; [exact H|].
  assert (Ht : Room.timer s = false).
  { destruct (Room.timer s) eqn:Ht; [|reflexivity]. destruct (H Ht) as [E _]. congruence. }
  cbn [orb].
  destruct (negb (JSMap.size (Room.players s) =? 4)%nat || negb (Room.allReady s)); [exact H|].
  unfold detached. destruct (pool_of s) as [|first rest] eqn:Hp.
  - rewrite (start_empty_pool pick now s Hp). unfold state_after, timer_sound. cbn. rewrite Ht.
    intros E. discriminate E.
  - rewrite (start_run pick now s first rest Hp). unfold state_after. cbn [fst snd].
    destruct (truthy (Room.endAt (announced (drawn pick s first) now s))) eqn:Et.
    + intros _. split; [reflexivity | exact Et].
    + unfold timer_sound. cbn. rewrite Ht. intros E. discriminate E.
Qed.

Lemma perform_timer_sound (op : RoomOp) (r : Room.state) :
  timer_sound r -> timer_sound (state_after (perform op r)).
Proof.
  intros H. destruct op as [p|pid|pick now pid b|pid text|vm now pid code h|now|]; cbn [perform].
  - destruct (Nat.lt_ge_cases (JSMap.size (Room.players r)) 4) as [Hlt|Hge].
    + rewrite (addPlayer_joins p r Hlt). exact (timer_sound_round r _ eq_refl H).
    + rewrite (addPlayer_full p r Hge). exact H.
  - rewrite removePlayer_run. exact (timer_sound_round r _ eq_refl H).
  - rewrite setReady_run. destruct (JSMap.get pid (Room.players r)) as [p|]; [|exact H].
    cbv zeta.
    pose proof (tryStart_timer_sound pick now (with_ready_of pid b r)
                  (timer_sound_round r _ eq_refl H)) as H'.
    destruct (Room.tryStart pick now (with_ready_of pid b r)) as [[o s] tr]. exact H'.
  - rewrite handleChat_run. exact H.
  - rewrite state_after_forget.
    pose proof (handleSubmit_run vm now pid code h r) as E.
    apply (f_equal state_after) in E. rewrite state_after_forget in E. rewrite E. clear E.
    destruct (JSMap.get pid (Room.players r)) as [p|]; [|exact H].
    destruct (Room.problem r) as [pb|]; [|exact H].
    destruct (Room.started r) eqn:Hs; [|exact H].
    destruct (fst (evaluateSolution vm code pb h)) as [[|]|m].
    + pose proof (finish_timer_sound now (Some (Player.team p)) (tried pid r)
                    (timer_sound_round r _ eq_refl H)) as H'.
      destruct (Room.finish now (Some (Player.team p)) (tried pid r)) as [[o s] tr]. exact H'.
    + exact (timer_sound_round r _ eq_refl H).
    + exact (timer_sound_round r _ eq_refl H).
  - rewrite timer_tick_run. destruct (Room.timer r && truthy (Room.endAt r)); [|exact H].
    destruct (Room.endAt r) as [e|]; [|exact H].
    destruct (e <=? now)%Z; [|exact H].
    apply finish_timer_sound. intros E. discriminate E.
  - intros E. discriminate E.
Qed.

Lemma reachable_timer_sound (r : Room.state) : reachable r -> timer_sound r.
Proof.
  induction 1 as [rid d t|r r' _ IH Hstep].
  - intros E. discriminate E.
  - destruct (room_step_perform r r' Hstep) as [op ->]. exact (perform_timer_sound op r IH).
Qed.

(** X16.  The timer.  In a reachable room whose interval runs the round is
    on and has a deadline.  A tick before the deadline sends the deadline to
    the players and changes nothing.  A tick at or after the deadline
    concludes the round with no winner: the players are sent a round end
    with no time left, then the room state, and the interval is stopped, so
    that any later tick does nothing. *)
Theorem tick_syncs_or_concludes (r : Room.state) (now : Z) :
  reachable r ->
  Room.timer r = true ->
  exists e,
    Room.endAt r = Some e
    /\ Room.started r = true
    /\ if (e <=? now)%Z
       then Room.timer_tick now r
            = (Returned tt, concluded None r,
               (Room.fanout (ToClient.game_over None 0) (concluded None r)
                ++ Room.fanout (ToClient.room_state (Room.serializeRoom (concluded None r)) None)
                               (concluded None r))%list)
            /\ forall later, Room.timer_tick later (concluded None r)
                             = (Returned tt, concluded None r, [])
       else Room.timer_tick now r = (Returned tt, r, Room.fanout (ToClient.timer_sync e) r).
Proof.
  intros Hr Ht. destruct (reachable_timer_sound r Hr Ht) as [Hs He].
  destruct (Room.endAt r) as [e|] eqn:Ee; [|discriminate He].
  exists e. split; [reflexivity|]. split; [exact Hs|].
  rewrite timer_tick_run, Ht, Ee, He. cbn [andb].
  destruct (Z.leb_spec e now) as [Hle|Hgt]; [|reflexivity].
  split; [|intros later; reflexivity].
  rewrite finish_run. cbn [Room.started Room.with_timer]. rewrite Hs.
  unfold remaining. cbn [Room.endAt Room.with_timer]. rewrite Ee, He.
  replace (Z.max 0 (e - now)) with 0%Z by lia. reflexivity.
Qed.

Lemma playing_reachable : reachable Scenario.playing.
Proof.
  assert (E : Scenario.playing
    = state_after (Room.setReady 0 5000 "u4" true
       (state_after (Room.setReady 0 4000 "u3" true
        (state_after (Room.setReady 0 3000 "u2" true
         (state_after (Room.setReady 0 2000 "u1" true
          (state_after (Room.addPlayer (guest 4 "u4")
           (state_after (Room.addPlayer (guest 3 "u3")
            (state_after (Room.addPlayer (guest 2 "u2")
             (state_after (Room.addPlayer (guest 1 "u1")
              (Room.new "ABCD" Easy Arrays))))))))))))))))).
  { vm_compute. reflexivity. }
  rewrite E.
  repeat first [ apply reach_new
               | eapply reach_step; [ | first [ apply step_setReady
                                              | apply step_addPlayer; reflexivity ] ] ].
Qed.

Lemma tick_syncs_or_concludes_witness :
  Room.timer_tick 1205000 Scenario.playing
  = (Returned tt, concluded None Scenario.playing,
     (Room.fanout (ToClient.game_over None 0) (concluded None Scenario.playing)
      ++ Room.fanout (ToClient.room_state (Room.serializeRoom (concluded None Scenario.playing)) None)
                     (concluded None Scenario.playing))%list).
Proof.
  destruct (tick_syncs_or_concludes Scenario.playing 1205000 playing_reachable eq_refl)
    as (e & He & _ & H).
  assert (Ee : e = 1205000%Z).
  { vm_compute in He. injection He as <-. reflexivity. }
  subst e. exact (proj1 H).
Defined.

(** ** Readiness *)

Lemma get_adjust_some {V} (m : JSMap.t V) (k : string) (f : V -> V) (v : V) :
  JSMap.get k m = Some v -> In (f v) (JSMap.values (JSMap.adjust f k m)).
Proof.
  intros H. apply get_In_values with (k := k). rewrite get_adjust, H, String.eqb_refl. reflexivity.
Qed.

Lemma withdrawn_not_all_ready (pid : string) (r : Room.state) (p : Player.t) :
  JSMap.get pid (Room.players r) = Some p -> Room.allReady (with_ready_of pid false r) = false.
Proof.
  intros H. unfold Room.allReady, with_ready_of. cbn [Room.players Room.with_players].
  destruct (forallb Player.ready _) eqn:E; [|reflexivity].
  rewrite forallb_forall in E.
  specialize (E _ (get_adjust_some _ _ (Player.with_ready false) _ H)). discriminate E.
Qed.

(** X17.  Withdrawing readiness never starts a round: [setReady] with
    [false] from a player records it and sends the room state, whatever the
    state of the room; from anyone else it does nothing. *)
Theorem withdrawing_readiness_never_starts (pick : nat) (now : Z) (pid : string) (r : Room.state) :
  Room.setReady pick now pid false r
  = match JSMap.get pid (Room.players r) with
    | Some _ =>
        (Returned tt, with_ready_of pid false r,
         Room.fanout (ToClient.room_state (Room.serializeRoom (with_ready_of pid false r)) None)
                     (with_ready_of pid false r))
    | None => (Returned tt, r, [])
    end.
Proof.
  rewrite setReady_run. destruct (JSMap.get pid (Room.players r)) as [p|] eqn:Hg; [|reflexivity].
  cbv zeta. rewrite tryStart_run, (withdrawn_not_all_ready pid r p Hg).
  rewrite orb_true_r, app_nil_r. reflexivity.
Qed.

(** X18.  In a room that has not started, [setReady] leaves the room
    started exactly when the sender is a player of it, it holds four players
    and, with the readiness recorded, all of them are ready. *)
Theorem setReady_starts_iff (pick : nat) (now : Z) (pid : string) (b : bool) (r : Room.state) :
  Room.started r = false ->
  (Room.started (state_after (Room.setReady pick now pid b r)) = true
   <-> JSMap.has pid (Room.players r) = true
       /\ JSMap.size (Room.players r) = 4
       /\ Room.allReady (with_ready_of pid b r) = true).
Proof.
  intros Hs. rewrite setReady_run, has_get.
  destruct (JSMap.get pid (Room.players r)) as [p|].
  - cbv zeta.
    pose proof (tryStart_starts_iff pick now (with_ready_of pid b r) Hs) as H.
    rewrite size_with_ready_of in H.
    destruct (Room.tryStart pick now (with_ready_of pid b r)) as [[o s] tr].
    unfold state_after in *. cbn [fst snd] in *. rewrite H. tauto.
  - unfold state_after. cbn [fst snd]. rewrite Hs.
    split; [intros H; discriminate H | intros [H _]; discriminate H].
Qed.

Lemma setReady_starts_iff_witness :
  Room.started (state_after (Room.setReady 0 5000 "u4" true (Scenario.room_abcd Scenario.easy_arrays)))
  = true.
Proof.
  apply (setReady_starts_iff 0 5000 "u4" true (Scenario.room_abcd Scenario.easy_arrays) eq_refl).
  repeat apply conj; vm_compute; reflexivity.
Defined.

(** ** Leaving *)

(** X19.  [removePlayer] deletes the player and nothing else: every other
    player, the round (started, problem, deadline, interval) and the winner
    are as before, also in the middle of a round and when the room is left
    with no player; the room state is sent to the players left, if any. *)
Theorem removePlayer_forgets_player_only (pid : string) (r : Room.state) (k : string) :
  let r' := state_after (Room.removePlayer pid r) in
  JSMap.get k (Room.players r')
  = (if String.eqb pid k then None else JSMap.get k (Room.players r))
  /\ round_of r' = round_of r
  /\ Room.winner r' = Room.winner r
  /\ trace_of (Room.removePlayer pid r)
     = if (JSMap.size (Room.players r') =? 0)%nat then []
       else Room.fanout (ToClient.room_state (Room.serializeRoom r') None) r'.
Proof.
  intros r'. subst r'. rewrite removePlayer_run. unfold state_after, trace_of. cbn [fst snd].
  split; [apply get_delete|]. repeat split.
Qed.

(** ** Invariants of the server *)

Lemma problem_sound_same (r r' : Room.state) :
  (Room.problem r', Room.difficulty r', Room.topic r')
  = (Room.problem r, Room.difficulty r, Room.topic r) ->
  problem_sound r -> problem_sound r'.
Proof.
  unfold problem_sound, pool_of. intros E. injection E as -> -> ->. tauto.
Qed.

Lemma drawn_in_pool (pick : nat) (r : Room.state) (first : Problem) (rest : list Problem) :
  pool_of r = first :: rest -> In (drawn pick r first) (pool_of r).
Proof.
  intros H. unfold drawn. apply nth_In. rewrite H. apply Nat.mod_upper_bound. discriminate.
Qed.

Lemma finish_problem_sound (now : Z) (w : option TeamKey) (s : Room.state) :
  problem_sound s -> problem_sound (state_after (Room.finish now w s)).
Proof.
  intros H. rewrite finish_run. destruct (Room.started s); [|exact H].
  exact (problem_sound_same s _ eq_refl H).
Qed.

Lemma tryStart_problem_sound (pick : nat) (now : Z) (s : Room.state) :
  problem_sound s -> problem_sound (state_after (Room.tryStart pick now s)).
Proof.
  intros H. rewrite tryStart_run.
  destruct (Room.started s || negb (JSMap.size (Room.players s) =? 4)%nat || negb (Room.allReady s));
    [exact H|].
  unfold detached. destruct (pool_of s) as [|first rest] eqn:Hp.
  - rewrite (start_empty_pool pick now s Hp). exact (problem_sound_same s _ eq_refl H).
  - rewrite (start_run pick now s first rest Hp). unfold state_after. cbn [fst snd].
    assert (G : problem_sound (announced (drawn pick s first) now s)).
    { intros pb E. injection E as <-. exact (drawn_in_pool pick s first rest Hp). }
    destruct (truthy (Room.endAt (announced (drawn pick s first) now s))); [|exact G].
    exact (problem_sound_same _ _ eq_refl G).
Qed.

Lemma perform_problem_sound (op : RoomOp) (r : Room.state) :
  problem_sound r -> problem_sound (state_after (perform op r)).
Proof.
  intros H. destruct op as [p|pid|pick now pid b|pid text|vm now pid code h|now|]; cbn [perform].
  - destruct (Nat.lt_ge_cases (JSMap.size (Room.players r)) 4) as [Hlt|Hge].
    + rewrite (addPlayer_joins p r Hlt). exact (problem_sound_same r _ eq_refl H).
    + rewrite (addPlayer_full p r Hge). exact H.
  - rewrite removePlayer_run. exact (problem_sound_same r _ eq_refl H).
  - rewrite setReady_run. destruct (JSMap.get pid (Room.players r)) as [p|]; [|exact H].
    cbv zeta.
    pose proof (tryStart_problem_sound pick now (with_ready_of pid b r)
                  (problem_sound_same r _ eq_refl H)) as H'.
    destruct (Room.tryStart pick now (with_ready_of pid b r)) as [[o s] tr]. exact H'.
  - rewrite handleChat_run. exact H.
  - pose proof (handleSubmit_run vm now pid code h r) as E.
    apply (f_equal state_after) in E. rewrite E. clear E.
    destruct (JSMap.get pid (Room.players r)) as [p|]; [|exact H].
    destruct (Room.problem r) as [pb|] eqn:Hpb; [|exact H].
    destruct (Room.started r) eqn:Hs; [|exact H].
    assert (Ht : problem_sound (tried pid r)).
    { exact (problem_sound_same r _ eq_refl H). }
    destruct (fst (evaluateSolution vm code pb h)) as [[|]|m].
    + pose proof (finish_problem_sound now (Some (Player.team p)) (tried pid r) Ht) as H'.
      destruct (Room.finish now (Some (Player.team p)) (tried pid r)) as [[o s] tr]. exact H'.
    + exact (problem_sound_same (tried pid r) _ eq_refl Ht).
    + exact (problem_sound_same (tried pid r) _ eq_refl Ht).
  - rewrite timer_tick_run. destruct (Room.timer r && truthy (Room.endAt r)); [|exact H].
    destruct (Room.endAt r) as [e|]; [|exact H].
    destruct (e <=? now)%Z; [|exact H].
    apply finish_problem_sound. exact (problem_sound_same r _ eq_refl H).
  - intros pb E. discriminate E.
Qed.

Section MoreMapFacts.
Context {V : Type}.
Implicit Types (m : JSMap.t V) (k : string) (v : V).








End MoreMapFacts.

Lemma set_set {V} (m : JSMap.t V) (k : string) (v0 v : V) :
  JSMap.set k v (JSMap.set k v0 m) = JSMap.set k v m.
Proof.
  induction m as [|[k0 v1] m IH]; simpl.
  - rewrite String.eqb_refl. reflexivity.
  - destruct (String.eqb_spec k0 k) as [->|Hne]; simpl.
    + rewrite String.eqb_refl. reflexivity.
    + destruct (String.eqb_spec k0 k); [contradiction|]. f_equal. exact IH.
Qed.






















Section ValueFacts.
Context {V : Type}.
Implicit Types (m : JSMap.t V) (k : string) (v : V) (Q : V -> Prop).

Lemma Forall_values_set Q m k v :
  Forall Q (JSMap.values m) -> Q v -> Forall Q (JSMap.values (JSMap.set k v m)).
Proof.
  unfold JSMap.values. intros Hm Hv. induction m as [|[k0 v0] m IH]; simpl in *.
  - constructor; [exact Hv | constructor].
  - inversion Hm; subst. destruct (String.eqb k0 k); simpl; constructor; auto.
Qed.

Lemma Forall_values_delete Q m k :
  Forall Q (JSMap.values m) -> Forall Q (JSMap.values (JSMap.delete k m)).
Proof.
  unfold JSMap.values, JSMap.delete. intros Hm. induction m as [|[k0 v0] m IH]; simpl in *.
  - constructor.
  - inversion Hm; subst. destruct (negb (String.eqb k0 k)); simpl; [constructor|]; auto.
Qed.

Lemma Forall_values_adjust Q m k (f : V -> V) :
  (forall v, Q v -> Q (f v)) ->
  Forall Q (JSMap.values m) -> Forall Q (JSMap.values (JSMap.adjust f k m)).
Proof.
  unfold JSMap.values, JSMap.adjust. intros Hf Hm. induction m as [|[k0 v0] m IH]; simpl in *.
  - constructor.
  - inversion Hm; subst. constructor; [|auto].
    destruct (String.eqb k0 k); simpl; auto.
Qed.

Lemma adjust_adjust m k (f g : V -> V) :
  JSMap.adjust f k (JSMap.adjust g k m) = JSMap.adjust (fun v => f (g v)) k m.
Proof.
  unfold JSMap.adjust. rewrite map_map. apply map_ext. intros [k0 v0]. simpl.
  destruct (String.eqb k0 k) eqn:E; simpl; rewrite ?E; reflexivity.
Qed.

End ValueFacts.

Lemma counters_same (r r' : Room.state) :
  Room.players r' = Room.players r -> counters_sound r -> counters_sound r'.
Proof. unfold counters_sound. intros ->. tauto. Qed.

Lemma finish_players (now : Z) (w : option TeamKey) (s : Room.state) :
  Room.players (state_after (Room.finish now w s)) = Room.players s.
Proof. rewrite finish_run. destruct (Room.started s); reflexivity. Qed.

Lemma tryStart_players (pick : nat) (now : Z) (s : Room.state) :
  Room.players (state_after (Room.tryStart pick now s)) = Room.players s.
Proof.
  rewrite tryStart_run.
  destruct (Room.started s || negb (JSMap.size (Room.players s) =? 4)%nat || negb (Room.allReady s));
    [reflexivity|].
  unfold detached. destruct (pool_of s) as [|first rest] eqn:Hp.
  - rewrite (start_empty_pool pick now s Hp). reflexivity.
  - rewrite (start_run pick now s first rest Hp). unfold state_after. cbn [fst snd].
    destruct (truthy _); reflexivity.
Qed.

Lemma perform_counters (op : RoomOp) (r : Room.state) :
  from_handler op -> counters_sound r -> counters_sound (state_after (perform op r)).
Proof.
  intros Hop H. destruct op as [p|pid|pick now pid b|pid text|vm now pid code h|now|]; cbn [perform].
  - destruct (Nat.lt_ge_cases (JSMap.size (Room.players r)) 4) as [Hlt|Hge].
    + rewrite (addPlayer_joins p r Hlt). unfold state_after, counters_sound, joined_room.
      cbn [fst snd Room.players Room.with_players].
      apply Forall_values_set; [exact H|]. destruct Hop as [Ha He]. destruct p; simpl in *. lia.
    + rewrite (addPlayer_full p r Hge). exact H.
  - rewrite removePlayer_run. unfold state_after, counters_sound.
    cbn [fst snd Room.players Room.with_players]. apply Forall_values_delete. exact H.
  - rewrite setReady_run. destruct (JSMap.get pid (Room.players r)) as [p|]; [|exact H].
    cbv zeta. pose proof (tryStart_players pick now (with_ready_of pid b r)) as E.
    destruct (Room.tryStart pick now (with_ready_of pid b r)) as [[o s] tr].
    unfold state_after in *. cbn [fst snd] in *. apply (counters_same _ _ E).
    unfold counters_sound, with_ready_of. cbn [Room.players Room.with_players].
    apply Forall_values_adjust; [|exact H]. intros q Hq. exact Hq.
  - rewrite handleChat_run. exact H.
  - pose proof (handleSubmit_run vm now pid code h r) as E.
    apply (f_equal state_after) in E. rewrite E. clear E.
    destruct (JSMap.get pid (Room.players r)) as [p|]; [|exact H].
    destruct (Room.problem r) as [pb|]; [|exact H].
    destruct (Room.started r); [|exact H].
    assert (Ht : counters_sound (tried pid r)).
    { unfold counters_sound, tried. cbn [Room.players Room.with_players].
      apply Forall_values_adjust; [|exact H]. intros q Hq. simpl. lia. }
    assert (Hf : counters_sound (failed pid r)).
    { unfold counters_sound, failed, tried. cbn [Room.players Room.with_players].
      rewrite adjust_adjust. apply Forall_values_adjust; [|exact H]. intros q Hq. simpl. lia. }
    destruct (fst (evaluateSolution vm code pb h)) as [[|]|m]; [|exact Hf|exact Hf].
    pose proof (finish_players now (Some (Player.team p)) (tried pid r)) as E.
    destruct (Room.finish now (Some (Player.team p)) (tried pid r)) as [[o s] tr].
    unfold state_after in *. cbn [fst snd] in *. exact (counters_same _ _ E Ht).
  - rewrite timer_tick_run. destruct (Room.timer r && truthy (Room.endAt r)); [|exact H].
    destruct (Room.endAt r) as [e|]; [|exact H].
    destruct (e <=? now)%Z; [|exact H].
    apply (counters_same _ _ (finish_players now None (Room.with_timer false r))). exact H.
  - unfold counters_sound, JSMap.values.
    change (Room.players (state_after (Room.rematch r)))
      with (map (fun e => (fst e, Player.with_errors 0 (Player.with_attempts 0
                                    (Player.with_ready false (snd e))))) (Room.players r)).
    rewrite map_map. apply Forall_forall. intros q Hq.
    apply in_map_iff in Hq as [e [<- _]]. simpl. lia.
Qed.

Lemma perform_sound_step (op : RoomOp) (r : Room.state) :
  sound_step r (state_after (perform op r)).
Proof.
  destruct op as [p|pid|pick now pid b|pid text|vm now pid code h|now|]; cbn [perform].
  - apply addPlayer_sound.
  - apply removePlayer_sound.
  - apply setReady_sound.
  - apply handleChat_sound.
  - rewrite state_after_forget. apply handleSubmit_sound.
  - apply timer_tick_sound.
  - apply rematch_sound.
Qed.

Lemma perform_room_sound (op : RoomOp) (r : Room.state) :
  from_handler op -> room_sound r -> room_sound (state_after (perform op r)).
Proof.
  intros Hop (Hc & Ht & Hp & Hr). split; [exact (perform_counters op r Hop Hc)|].
  split; [exact (perform_timer_sound op r Ht)|].
  split; [exact (perform_problem_sound op r Hp)|].
  destruct (perform_sound_step op r) as (Hd & Htp & H).
  intros Hpool. rewrite (pool_of_same _ _ Hd Htp) in Hpool. exact (H Hpool (Hr Hpool)).
Qed.

Lemma new_room_sound (rid : string) (d : Difficulty) (t : Topic) : room_sound (Room.new rid d t).
Proof.
  split; [constructor|]. split; [intros E; discriminate E|].
  split; [intros pb E; discriminate E|]. intros _ E. discriminate E.
Qed.

Lemma rooms_sound_get (rooms : RoomsMap.t) (k : string) (r : Room.state) :
  rooms_sound rooms -> JSMap.get k rooms = Some r -> room_sound r.
Proof.
  unfold rooms_sound. rewrite Forall_forall. intros H E. exact (H r (get_In_values _ _ _ E)).
Qed.

Lemma in_room_sound (vm : Sandbox) {A} (rid : string) (m : M Room.state A) (sv : Server vm) :
  (forall r, room_sound r -> room_sound (state_after (m r))) ->
  rooms_sound (rooms sv) -> rooms_sound (rooms (snd (fst (in_room vm rid m sv)))).
Proof.
  intros Hm Hok. unfold in_room, RoomsMap.get.
  destruct (JSMap.get rid (rooms sv)) as [room|] eqn:E; [|exact Hok].
  specialize (Hm room (rooms_sound_get _ _ _ Hok E)). unfold state_after in Hm.
  destruct (m room) as [[o room'] tr]. cbn [fst snd rooms] in *.
  apply Forall_values_set; assumption.
Qed.

Lemma on_message_sound (vm : Sandbox) (env : Env) (data : Data vm) (c : Session) (sv : Server vm) :
  rooms_sound (rooms sv) -> rooms_sound (rooms (snd (fst (on_message vm env data c sv)))).
Proof.
  intros Hok. destruct data as [|msg|]; [exact Hok| |exact Hok].
  destruct msg as [roomId name d tp|b|text|code|line column|code|]; cbn [on_message].
  - destruct (currentRoom c); [exact Hok|].
    set (p := Player.mk (randomUUID env) (sanitizeName name) TeamA false 0 0 (socket c)).
    unfold RoomsMap.getOrCreate.
    destruct (JSMap.get (toUpperCase roomId) (rooms sv)) as [room|] eqn:E.
    + pose proof (perform_room_sound (OpAddPlayer p) room (conj eq_refl eq_refl)
                    (rooms_sound_get _ _ _ Hok E)) as H.
      cbn [perform] in H. unfold state_after in H.
      destruct (Room.addPlayer p room) as [[[u|e] room'] o]; cbn [fst snd rooms] in *;
        apply Forall_values_set; assumption.
    + pose proof (perform_room_sound (OpAddPlayer p) _ (conj eq_refl eq_refl)
                    (new_room_sound (toUpperCase roomId)
                       (match d with Some d => d | None => Easy end)
                       (match tp with Some t => t | None => Arrays end))) as H.
      cbn [perform] in H. unfold state_after in H.
      destruct (Room.addPlayer p _) as [[[u|e] room'] o]; cbn [fst snd rooms] in *;
        (apply Forall_values_set; [apply Forall_values_set; [exact Hok | apply new_room_sound] | exact H]).
  - destruct (joined c) as [[rid sid]|]; [|exact Hok].
    pose proof (in_room_sound vm rid _ sv
                  (fun r => perform_room_sound (OpSetReady (pick env) (now env) sid b) r I) Hok) as H.
    cbn [perform] in H. destruct (in_room vm rid _ sv) as [[o sv'] tr]. exact H.
  - destruct (joined c) as [[rid sid]|]; [|exact Hok].
    pose proof (in_room_sound vm rid _ sv
                  (fun r => perform_room_sound (OpHandleChat sid (String.substring 0 400 text)) r I)
                  Hok) as H.
    cbn [perform] in H. destruct (in_room vm rid _ sv) as [[o sv'] tr]. exact H.
  - exact Hok.
  - exact Hok.
  - destruct (joined c) as [[rid sid]|]; [|exact Hok].
    assert (G : forall r, room_sound r ->
                  room_sound (state_after (Room.handleSubmit vm (now env) sid code (host sv) r))).
    { intros r Hr.
      pose proof (perform_room_sound (OpHandleSubmit vm (now env) sid code (host sv)) r I Hr) as H.
      cbn [perform] in H. rewrite state_after_forget in H. exact H. }
    pose proof (in_room_sound vm rid _ sv G Hok) as H.
    destruct (in_room vm rid _ sv) as [[[[h'|e]|] sv'] tr]; exact H.
  - destruct (currentRoom c) as [rid|]; [|exact Hok].
    pose proof (in_room_sound vm rid _ sv (fun r => perform_room_sound OpRematch r I) Hok) as H.
    cbn [perform] in H. destruct (in_room vm rid _ sv) as [[o sv'] tr]. exact H.
Qed.

Lemma on_close_sound (vm : Sandbox) (c : Session) (sv : Server vm) :
  rooms_sound (rooms sv) -> rooms_sound (rooms (fst (on_close vm c sv))).
Proof.
  intros Hok. unfold on_close. destruct (joined c) as [[rid sid]|]; [|exact Hok].
  pose proof (in_room_sound vm rid _ sv (fun r => perform_room_sound (OpRemovePlayer sid) r I) Hok) as H.
  cbn [perform] in H. destruct (in_room vm rid _ sv) as [[o sv'] tr]. cbn [fst snd rooms] in *.
  unfold RoomsMap.removeIfEmpty. destruct (JSMap.get rid (rooms sv')) as [r|]; [|exact H].
  destruct (JSMap.size (Room.players r) =? 0)%nat; [|exact H].
  apply Forall_values_delete. exact H.
Qed.

Lemma run_sound (vm : Sandbox) (es : list (Event vm)) :
  forall w, rooms_sound (rooms (server w)) -> rooms_sound (rooms (server (fst (run vm w es)))).
Proof.
  induction es as [|e es IH]; intros w Hok; cbn [run]; [exact Hok|].
  assert (H1 : rooms_sound (rooms (server (fst (step vm w e))))).
  { destruct e as [ws|n env data|n|rid t]; cbn [step].
    - exact Hok.
    - destruct (session_of vm n w) as [c|]; [|exact Hok].
      pose proof (on_message_sound vm env data c (server w) Hok) as H.
      destruct (on_message vm env data c (server w)) as [[c' sv'] o]. exact H.
    - destruct (session_of vm n w) as [c|]; [|exact Hok].
      pose proof (on_close_sound vm c (server w) Hok) as H.
      destruct (on_close vm c (server w)) as [sv' o]. exact H.
    - pose proof (in_room_sound vm rid _ (server w)
                    (fun r => perform_room_sound (OpTimerTick t) r I) Hok) as H.
      cbn [perform] in H. destruct (in_room vm rid _ (server w)) as [[o sv'] tr]. exact H. }
  destruct (step vm w e) as [w1 o1]. specialize (IH w1 H1).
  destruct (run vm w1 es) as [w2 o2]. exact IH.
Qed.

Lemma pool_of_category (r : Room.state) (pb : Problem) :
  In pb (pool_of r) ->
  In pb repo /\ problem_difficulty pb = Room.difficulty r /\ problem_topic pb = Room.topic r.
Proof.
  unfold pool_of. intros H. apply filter_In in H as [Hin Hk].
  apply andb_true_iff in Hk as [Hd Ht].
  destruct (problem_difficulty pb), (Room.difficulty r); try discriminate Hd;
    destruct (problem_topic pb), (Room.topic r); try discriminate Ht; auto.
Qed.

(** X21.  Whatever the connections send and whenever they close, in every
    registered room: no player has more errors than attempts counted; a
    running interval belongs to a started round with a deadline; the
    problem, if there is one, is a problem of the repository of the room's
    difficulty and topic; and if the category of the room has a problem, a
    started round has a problem and a deadline. *)
Theorem registered_rooms_stay_sound
    (vm : Sandbox) (h : Host vm) (es : list (Event vm)) (rid : string) :
  match RoomsMap.get rid (rooms (server (fst (run vm (boot vm h) es)))) with
  | Some r =>
      (forall p, In p (JSMap.values (Room.players r)) -> Player.errors p <= Player.attempts p)
      /\ (Room.timer r = true -> Room.started r = true /\ truthy (Room.endAt r) = true)
      /\ (forall pb, Room.problem r = Some pb ->
                      In pb repo /\ problem_difficulty pb = Room.difficulty r
                      /\ problem_topic pb = Room.topic r)
      /\ (pool_of r <> [] -> Room.started r = true ->
          Room.problem r <> None /\ Room.endAt r <> None)
  | None => True
  end.
Proof.
  assert (Hok : rooms_sound (rooms (server (fst (run vm (boot vm h) es))))).
  { apply run_sound. constructor. }
  unfold RoomsMap.get.
  destruct (JSMap.get rid (rooms (server (fst (run vm (boot vm h) es))))) as [r|] eqn:E; [|exact I].
  destruct (rooms_sound_get _ _ _ Hok E) as (Hc & Ht & Hp & Hr).
  split; [|split; [exact Ht | split; [|exact Hr]]].
  2: { intros pb Epb. exact (pool_of_category r pb (Hp pb Epb)). }
  unfold counters_sound in Hc. rewrite Forall_forall in Hc. exact Hc.
Qed.


(** ** Opening a round, and joining *)

(** X22.  When [setReady] finds the four players of a room that has not
    started all ready, and the category of the room has a problem, the round
    opens: a problem of the category is drawn, the deadline is 1 200 000 ms
    after the current time and the interval runs; the players are sent the
    room state, then the game start with the problem, the deadline and the
    boilerplate, then the state of the started room. *)
Theorem setReady_opens_round
    (pick : nat) (now : Z) (pid : string) (r : Room.state) (first : Problem) (rest : list Problem) :
  JSMap.has pid (Room.players r) = true ->
  Room.started r = false ->
  JSMap.size (Room.players r) = 4 ->
  Room.allReady (with_ready_of pid true r) = true ->
  pool_of r = first :: rest ->
  (0 <= now)%Z ->
  let r1 := with_ready_of pid true r in
  let pb := drawn pick r first in
  let r2 := announced pb now r1 in
  In pb (pool_of r)
  /\ Room.setReady pick now pid true r
     = (Returned tt, Room.with_timer true r2,
        (Room.fanout (ToClient.room_state (Room.serializeRoom r1) None) r1
         ++ Room.fanout (ToClient.game_start pb (now + 1200000)%Z (boilerplate pb)) r2
         ++ Room.fanout (ToClient.room_state (Room.serializeRoom r2) None) r2)%list).
Proof.
  intros Hin Hs Hn Ha Hp Hnow r1 pb r2. split; [exact (drawn_in_pool pick r first rest Hp)|].
  rewrite has_get in Hin. rewrite setReady_run.
  destruct (JSMap.get pid (Room.players r)) as [p|]; [|discriminate Hin].
  cbv zeta. fold r1. rewrite tryStart_run.
  assert (E1 : Room.started r1 = false) by exact Hs.
  assert (E2 : JSMap.size (Room.players r1) = 4).
  { unfold r1. rewrite size_with_ready_of. exact Hn. }
  change (Room.allReady r1 = true) in Ha.
  rewrite E1, E2, Ha. cbn [orb negb Nat.eqb]. unfold detached.
  assert (Hp1 : pool_of r1 = first :: rest) by exact Hp.
  rewrite (start_run pick now r1 first rest Hp1).
  change (drawn pick r1 first) with pb. fold r2.
  assert (Et : truthy (Room.endAt r2) = true).
  { unfold r2, announced, truthy. cbn [Room.endAt Room.with_endAt].
    unfold GAME_SECONDS. apply negb_true_iff, Z.eqb_neq. lia. }
  rewrite Et. reflexivity.
Qed.

Lemma setReady_opens_round_witness :
  let r := Scenario.room_abcd Scenario.easy_arrays in
  let r2 := announced Seed.twoSum 5000 (with_ready_of "u4" true r) in
  Room.setReady 0 5000 "u4" true r
  = (Returned tt, Room.with_timer true r2,
     (Room.fanout (ToClient.room_state (Room.serializeRoom (with_ready_of "u4" true r)) None)
                  (with_ready_of "u4" true r)
      ++ Room.fanout (ToClient.game_start Seed.twoSum 1205000 (boilerplate Seed.twoSum)) r2
      ++ Room.fanout (ToClient.room_state (Room.serializeRoom r2) None) r2)%list).
Proof.
  refine (proj2 (setReady_opens_round 0 5000 "u4" (Scenario.room_abcd Scenario.easy_arrays)
                   Seed.twoSum _ _ _ _ _ _ _)).
  - vm_compute. reflexivity.
  - vm_compute. reflexivity.
  - vm_compute. reflexivity.
  - vm_compute. reflexivity.
  - vm_compute. reflexivity.
  - lia.
Defined.

(** X23.  A join from a connection that is in no room, to a room with fewer
    than four players, succeeds.  A room not yet registered is created with
    the category of the message, Easy and Arrays by default; for a
    registered room the category of the message is ignored.  The player
    added has the sanitized name, no readiness, no attempt and no error, and
    the team [addPlayer] chooses; the room is registered under the
    upper-case id and the connection is in it; every player of the room is
    sent the room state tagged with the new id, and the joiner is sent it
    once more. *)
Theorem join_enters_room
    (vm : Sandbox) (env : Env) (roomId name : string) (d : option Difficulty) (tp : option Topic)
    (c : Session) (sv : Server vm) :
  currentRoom c = None ->
  let rid := toUpperCase roomId in
  let room := match RoomsMap.get rid (rooms sv) with
              | Some existing => existing
              | None => Room.new rid (match d with Some d => d | None => Easy end)
                                     (match tp with Some t => t | None => Arrays end)
              end in
  JSMap.size (Room.players room) < 4 ->
  let pid := randomUUID env in
  let room' := joined_room (Player.mk pid (sanitizeName name) TeamA false 0 0 (socket c)) room in
  on_message vm env (Parsed (ToServer.join_room roomId name d tp)) c sv
  = (mkSession (socket c) (Some rid) (Some pid),
     mkServer vm (JSMap.set rid room' (rooms sv)) (host sv),
     (Room.fanout (ToClient.room_state (Room.serializeRoom room') (Some pid)) room'
      ++ safeSend (socket c) (ToClient.room_state (Room.serializeRoom room') (Some pid)))%list).
Proof.
  intros Hc rid room Hsize pid room'. cbn [on_message]. rewrite Hc.
  fold rid. unfold RoomsMap.getOrCreate. unfold RoomsMap.get in room.
  destruct (JSMap.get rid (rooms sv)) as [existing|] eqn:E.
  - rewrite (addPlayer_joins _ existing Hsize). reflexivity.
  - rewrite (addPlayer_joins _ room Hsize). rewrite set_set. reflexivity.
Qed.

Lemma join_enters_room_witness :
  let room' := joined_room (Player.mk "u5" "eve" TeamA false 0 0 (Scenario.sock 5))
                           (Room.new "WXYZ" Hard DP) in
  on_message Scenario.vm (mkEnv 7000 0 "u5")
    (Parsed (ToServer.join_room "wxyz" "eve" (Some Hard) (Some DP)))
    (mkSession (Scenario.sock 5) None None) (server Scenario.easy_arrays)
  = (mkSession (Scenario.sock 5) (Some "WXYZ") (Some "u5"),
     mkServer Scenario.vm (JSMap.set "WXYZ" room' (rooms (server Scenario.easy_arrays)))
              (host (server Scenario.easy_arrays)),
     [Send 5 (ToClient.room_state (Room.serializeRoom room') (Some "u5"));
      Send 5 (ToClient.room_state (Room.serializeRoom room') (Some "u5"))]).
Proof.
  refine (join_enters_room Scenario.vm (mkEnv 7000 0 "u5") "wxyz" "eve" (Some Hard) (Some DP)
            (mkSession (Scenario.sock 5) None None) (server Scenario.easy_arrays) eq_refl _).
  vm_compute. lia.
Defined.


(** ** Round ends *)

Lemma fanout_not_game_over (msg : ToClient.t) (r : Room.state) :
  ToClient.is_game_over msg = false -> existsb is_game_over_send (Room.fanout msg r) = false.
Proof.
  intros H. unfold Room.fanout.
  induction (JSMap.values (Room.players r)) as [|p l IH]; [reflexivity|].
  simpl. unfold safeSend. destruct (isOpen (Player.ws p)); simpl; [rewrite H|]; exact IH.
Qed.

Lemma safeSend_not_game_over (ws : WebSocket) (msg : ToClient.t) :
  ToClient.is_game_over msg = false -> existsb is_game_over_send (safeSend ws msg) = false.
Proof. intros H. unfold safeSend. destruct (isOpen ws); simpl; [rewrite H|]; reflexivity. Qed.

Lemma tryStart_no_game_over (pick : nat) (now : Z) (s : Room.state) :
  existsb is_game_over_send (trace_of (Room.tryStart pick now s)) = false.
Proof.
  rewrite tryStart_run.
  destruct (Room.started s || negb (JSMap.size (Room.players s) =? 4)%nat || negb (Room.allReady s));
    [reflexivity|].
  unfold detached. destruct (pool_of s) as [|first rest] eqn:Hp.
  - rewrite (start_empty_pool pick now s Hp). reflexivity.
  - rewrite (start_run pick now s first rest Hp). unfold trace_of. cbn [snd].
    rewrite existsb_app, !fanout_not_game_over; reflexivity.
Qed.

Lemma finish_game_over (now : Z) (w : option TeamKey) (s : Room.state) :
  existsb is_game_over_send (trace_of (Room.finish now w s)) = true ->
  Room.started s = true /\ state_after (Room.finish now w s) = concluded w s.
Proof.
  rewrite finish_run. destruct (Room.started s); [|intros H; discriminate H].
  intros _. split; reflexivity.
Qed.

(** X24.  A round end is sent only as a running round ends: by a tick at or
    after the deadline, with no winner, or by a submission of a player that
    passes, whose team wins; the room is then not started and its interval
    is off.  No other operation sends one. *)
Theorem round_end_is_sent_as_a_round_ends (op : RoomOp) (r : Room.state) :
  existsb is_game_over_send (trace_of (perform op r)) = true ->
  let r' := state_after (perform op r) in
  Room.started r = true /\ Room.started r' = false /\ Room.timer r' = false
  /\ match op with
     | OpTimerTick now =>
         Room.winner r' = None /\ exists e, Room.endAt r = Some e /\ (e <= now)%Z
     | OpHandleSubmit vm now pid code h =>
         exists p pb, JSMap.get pid (Room.players r) = Some p /\ Room.problem r = Some pb
                      /\ fst (evaluateSolution vm code pb h) = Resolved true
                      /\ Room.winner r' = Some (Player.team p)
     | _ => False
     end.
Proof.
  destruct op as [p|pid|pick now pid b|pid text|vm now pid code h|now|]; cbn [perform]; cbv zeta.
  - destruct (Nat.lt_ge_cases (JSMap.size (Room.players r)) 4) as [Hlt|Hge].
    + rewrite (addPlayer_joins p r Hlt). unfold trace_of. cbn [snd].
      rewrite fanout_no_game_over. intros H. discriminate H.
    + rewrite (addPlayer_full p r Hge). intros H. discriminate H.
  - rewrite removePlayer_run. unfold trace_of. cbn [snd].
    destruct (JSMap.size _ =? 0)%nat; [|rewrite fanout_no_game_over]; intros H; discriminate H.
  - rewrite setReady_run. destruct (JSMap.get pid (Room.players r)) as [p|];
      [|intros H; discriminate H].
    cbv zeta. pose proof (tryStart_no_game_over pick now (with_ready_of pid b r)) as E.
    destruct (Room.tryStart pick now (with_ready_of pid b r)) as [[o s] tr].
    unfold trace_of in *. cbn [snd] in *. rewrite existsb_app, fanout_no_game_over, E.
    intros H. discriminate H.
  - rewrite handleChat_run. unfold trace_of. cbn [snd].
    destruct (JSMap.get pid (Room.players r)) as [p|]; [|intros H; discriminate H].
    rewrite fanout_not_game_over by reflexivity. intros H. discriminate H.
  - rewrite (handleSubmit_run vm now pid code h r).
    destruct (JSMap.get pid (Room.players r)) as [p|]; [|intros H; discriminate H].
    destruct (Room.problem r) as [pb|]; [|intros H; discriminate H].
    destruct (Room.started r) eqn:Hs; [|intros H; discriminate H].
    destruct (fst (evaluateSolution vm code pb h)) as [[|]|m] eqn:Ev.
    + pose proof (finish_game_over now (Some (Player.team p)) (tried pid r)) as F.
      destruct (Room.finish now (Some (Player.team p)) (tried pid r)) as [[o s] tr].
      unfold trace_of, state_after in *. cbn [fst snd] in *.
      rewrite existsb_app, fanout_not_game_over by reflexivity. cbn [orb].
      intros H. destruct (F H) as [_ ->].
      split; [reflexivity|]. split; [reflexivity|]. split; [reflexivity|].
      exists p, pb. split; [reflexivity|]. split; [reflexivity|]. split; [exact Ev | reflexivity].
    + unfold trace_of. cbn [snd].
      rewrite existsb_app, safeSend_not_game_over, fanout_no_game_over by reflexivity.
      intros H. discriminate H.
    + unfold trace_of. cbn [snd].
      rewrite existsb_app, safeSend_not_game_over, fanout_no_game_over by reflexivity.
      intros H. discriminate H.
  - rewrite timer_tick_run.
    destruct (Room.timer r && truthy (Room.endAt r)); [|intros H; discriminate H].
    destruct (Room.endAt r) as [e|]; [|intros H; discriminate H].
    destruct (Z.leb_spec e now) as [Hle|Hgt].
    + intros H. destruct (finish_game_over now None (Room.with_timer false r) H) as [Hs ->].
      split; [exact Hs|]. split; [reflexivity|]. split; [reflexivity|].
      split; [reflexivity|]. exists e. split; [reflexivity | exact Hle].
    + unfold trace_of. cbn [snd]. rewrite fanout_not_game_over by reflexivity.
      intros H. discriminate H.
  - unfold trace_of. change (snd (Room.rematch r))
      with (Room.fanout (ToClient.room_state
              (Room.serializeRoom (state_after (Room.rematch r))) None)
              (state_after (Room.rematch r))).
    rewrite fanout_no_game_over. intros H. discriminate H.
Qed.

Lemma round_end_is_sent_as_a_round_ends_witness :
  let r' := state_after (Room.timer_tick 1205000 Scenario.playing) in
  Room.started Scenario.playing = true /\ Room.started r' = false /\ Room.timer r' = false
  /\ Room.winner r' = None /\ exists e, Room.endAt Scenario.playing = Some e /\ (e <= 1205000)%Z.
Proof.
  refine (round_end_is_sent_as_a_round_ends (OpTimerTick 1205000) Scenario.playing _).
  vm_compute. reflexivity.
Defined.
